(** * The site crawler of the enterprise catalogue, and its rate limiter

    A shallow embedding of [server/services/crawler.js] (class
    [CrawlerService]), of the middleware it consumes,
    [server/middlewares/rateLimit.js] (class [RateLimiter]), and of the
    crawl-status method of [server/models/Website.js].

    Conventions.
    - JavaScript strings are [string] (bytes; literals are UTF-8).
    - JavaScript numbers that hold counts, depths, statuses and clock
      readings are [Z].
    - [undefined] is [None]; [x || d] on strings is [js_or].
    - The platform and third-party classes the code only calls ([URL],
      [axios], [cheerio]) are parameters of the crawler section; a small
      concrete instance of them is given afterwards for closed examples.
    - An [async] method is a computation [M A]: it reads and updates a
      [World], emits a trace of [Event]s and ends in an [Outcome]: a value,
      a thrown error, or a promise that never settles. *)

From stdpp Require Import gmap strings list.
From Stdlib Require Import ZArith Lia Ascii.

Local Open Scope Z_scope.

(** ** JavaScript string helpers *)

Module JS.

(** Truthiness of a string value: the empty string is falsy. *)
Definition truthy (s : string) : bool :=
  match s with EmptyString => false | String _ _ => true end.

(** [o || d] where [o] is a string or [undefined]. *)
Definition js_or (o : option string) (d : string) : string :=
  match o with
  | Some s => if truthy s then s else d
  | None => d
  end.

(** [!o] for a string or [undefined]. *)
Definition js_not (o : option string) : bool :=
  match o with
  | Some s => negb (truthy s)
  | None => true
  end.

(** White space removed by [String.prototype.trim], on the ASCII range:
    TAB, LF, VT, FF, CR and SPACE. *)
Definition is_space (c : ascii) : bool :=
  let n := Ascii.nat_of_ascii c in
  (Nat.eqb n 32 || (Nat.leb 9 n && Nat.leb n 13))%bool.

Fixpoint trimStart (s : string) : string :=
  match s with
  | EmptyString => EmptyString
  | String c s' => if is_space c then trimStart s' else s
  end.

Fixpoint trimEnd (s : string) : string :=
  match s with
  | EmptyString => EmptyString
  | String c s' =>
      match trimEnd s' with
      | EmptyString => if is_space c then EmptyString else String c EmptyString
      | t => String c t
      end
  end.

Definition trim (s : string) : string := trimEnd (trimStart s).


(** [pat] occurs in [s]: the test of a regular expression that is a plain
    literal, such as [/angular/]. *)
Fixpoint includes (pat s : string) : bool :=
  (String.prefix pat s ||
   match s with
   | EmptyString => false
   | String _ s' => includes pat s'
   end)%bool.

(** [s.replace(/\/+/g, '/')]: every maximal run of slashes becomes one. *)
Fixpoint collapse_slashes (s : string) : string :=
  match s with
  | EmptyString => EmptyString
  | String c s' =>
      match s' with
      | String c' _ =>
          if (Ascii.eqb c "/"%char && Ascii.eqb c' "/"%char)%bool
          then collapse_slashes s'
          else String c (collapse_slashes s')
      | EmptyString => String c EmptyString
      end
  end.

(** Two slashes in a row somewhere in [s]. *)
Fixpoint has_double_slash (s : string) : bool :=
  match s with
  | EmptyString => false
  | String c s' =>
      match s' with
      | String c' _ =>
          ((Ascii.eqb c "/"%char && Ascii.eqb c' "/"%char) || has_double_slash s')%bool
      | EmptyString => false
      end
  end.

(** [[...new Set(l)]]: first occurrences, in insertion order. *)
Fixpoint dedupe_from (seen l : list string) : list string :=
  match l with
  | [] => []
  | x :: l' =>
      if bool_decide (x ∈ seen) then dedupe_from seen l'
      else x :: dedupe_from (x :: seen) l'
  end.

Definition dedupe (l : list string) : list string := dedupe_from [] l.

(** [obj[key]] on an object used as a string dictionary. *)
Fixpoint prop (key : string) (obj : list (string * string)) : option string :=
  match obj with
  | [] => None
  | (k, v) :: obj' => if String.eqb k key then Some v else prop key obj'
  end.

End JS.

(** ** The platform's [URL] objects *)

Module Url.

(** The components the crawler reads or writes.  [search] and [hash] carry
    their leading [?] and [#] when not empty, [protocol] its trailing
    colon.  [opaque] marks a URL without hierarchy ([mailto:], [data:]),
    whose path the platform does not let scripts replace. *)
Record URL := mkURL {
  protocol : string;
  hostname : string;
  port : string;
  pathname : string;
  search : string;
  hash : string;
  opaque : bool
}.

Definition host (u : URL) : string :=
  if JS.truthy (port u) then hostname u +:+ ":" +:+ port u else hostname u.

Definition href (u : URL) : string :=
  if opaque u
  then protocol u +:+ pathname u +:+ search u +:+ hash u
  else protocol u +:+ "//" +:+ host u +:+ pathname u +:+ search u +:+ hash u.

Definition default_port (proto : string) : string :=
  if String.eqb proto "https:" then "443"
  else if String.eqb proto "http:" then "80"
  else "".

(** [u.protocol = proto], for a switch between [http:] and [https:] (the
    only assignment the crawler makes): the scheme changes and a port that
    is the new scheme's default is dropped. *)
Definition set_protocol (u : URL) (proto : string) : URL :=
  {| protocol := proto;
     hostname := hostname u;
     port := if String.eqb (port u) (default_port proto) then "" else port u;
     pathname := pathname u;
     search := search u;
     hash := hash u;
     opaque := opaque u |}.

(** [u.pathname = p]: ignored on an opaque path, stored otherwise. *)
Definition set_pathname (u : URL) (p : string) : URL :=
  if opaque u then u
  else {| protocol := protocol u;
          hostname := hostname u;
          port := port u;
          pathname := p;
          search := search u;
          hash := hash u;
          opaque := false |}.

End Url.

(** ** [middlewares/rateLimit.js]: the request limiter *)

Module RateLimit.

(** One entry of [this.requests]. *)
Record ClientRecord := mkClientRecord {
  count : Z;
  startTime : Z
}.

(** The merged [options] of one limiter. *)
Record Options := mkOptions {
  windowMs : Z;
  max : Z;
  message : string;
  statusCode : Z;
  skipSuccessfulRequests : bool;
  skipFailedRequests : bool
}.

(** The [config] argument of [createLimiter]: any subset of the options. *)
Record Config := mkConfig {
  cfg_windowMs : option Z;
  cfg_max : option Z;
  cfg_message : option string;
  cfg_statusCode : option Z;
  cfg_skipSuccessfulRequests : option bool;
  cfg_skipFailedRequests : option bool
}.

Definition defaultConfig : Options :=
  {| windowMs := 15 * 60 * 1000;
     max := 100;
     message := "请求过于频繁，请稍后再试";
     statusCode := 429;
     skipSuccessfulRequests := false;
     skipFailedRequests := false |}.

(** [{ ...this.defaultConfig, ...config }] *)
Definition merge (d : Options) (c : Config) : Options :=
  {| windowMs := default (windowMs d) (cfg_windowMs c);
     max := default (max d) (cfg_max c);
     message := default (message d) (cfg_message c);
     statusCode := default (statusCode d) (cfg_statusCode c);
     skipSuccessfulRequests :=
       default (skipSuccessfulRequests d) (cfg_skipSuccessfulRequests c);
     skipFailedRequests :=
       default (skipFailedRequests d) (cfg_skipFailedRequests c) |}.

(** The part of a request object the limiter looks at.  A property that is
    [None] is [undefined] on the object; [connection] is an object with a
    [remoteAddress] property. *)
Record Request := mkRequest {
  ip : option string;
  headers : option (list (string * string));
  connection : option (option string);
  method : option string
}.

(** The response object handed to the middleware: a real response, with
    [setHeader], [status] and [json], or an object without them. *)
Inductive Response :=
| ExpressResponse
| PlainObject.

(** Errors raised by the language itself. *)
Inductive Exn :=
| TypeError
| ReferenceError.

(** What the middleware did with the request. *)
Inductive Decision :=
| Next
| Respond (status : Z) (error : string) (retryAfter : Z).

Inductive LogEntry :=
| LogWarn (msg : string)
| LogError (msg : string).

Record Result := mkResult {
  decision : Decision;
  requests : gmap string ClientRecord;
  sentHeaders : list (string * Z);
  logged : list LogEntry
}.

(** [req.ip || req.headers['x-forwarded-for'] ||
     req.connection.remoteAddress || 'unknown']: reading a property of an
    [undefined] object throws. *)
Definition getClientIdentifier (req : Request) : Exn + string :=
  if negb (JS.js_not (ip req)) then inr (JS.js_or (ip req) "")
  else match headers req with
       | None => inl TypeError
       | Some h =>
           let fwd := JS.prop "x-forwarded-for" h in
           if negb (JS.js_not fwd) then inr (JS.js_or fwd "")
           else match connection req with
                | None => inl TypeError
                | Some remoteAddress => inr (JS.js_or remoteAddress "unknown")
                end
       end.

(** [shouldSkip(req, options)].  Its body reads [res.statusCode], but [res]
    is not a parameter of the method nor a variable in its scope: the read
    throws as soon as the conjuncts before it hold. *)
Definition shouldSkip (req : Request) (options : Options) : Exn + bool :=
  if (skipSuccessfulRequests options &&
      bool_decide (method req = Some "GET"))%bool
  then inl ReferenceError
  else if skipFailedRequests options then inl ReferenceError
  else inr false.

(** [Math.ceil(ms / 1000)] *)
Definition ceil_seconds (ms : Z) : Z := - ((- ms) / 1000).

(** The [catch] branch of the middleware: log, then let the request go. *)
Definition caught (reqs : gmap string ClientRecord) : Result :=
  {| decision := Next;
     requests := reqs;
     sentHeaders := [];
     logged := [LogError "限流中间件错误:"] |}.

(** The function returned by [createLimiter(config)], applied to
    [(req, res, next)] when [Date.now()] reads [currentTime] and
    [this.requests] is [reqs]. *)
Definition limiter (options : Options) (req : Request) (res : Response)
    (currentTime : Z) (reqs : gmap string ClientRecord) : Result :=
  match getClientIdentifier req with
  | inl _ => caught reqs
  | inr clientId =>
      match shouldSkip req options with
      | inl _ => caught reqs
      | inr true =>
          {| decision := Next; requests := reqs;
             sentHeaders := []; logged := [] |}
      | inr false =>
          let clientRecord :=
            default {| count := 0; startTime := currentTime |}
                    (reqs !! clientId) in
          if currentTime - startTime clientRecord >? windowMs options then
            {| decision := Next;
               requests :=
                 <[clientId := {| count := 1; startTime := currentTime |}]> reqs;
               sentHeaders := []; logged := [] |}
          else if count clientRecord >=? max options then
            let resetTime :=
              ceil_seconds (startTime clientRecord + windowMs options
                            - currentTime) in
            match res with
            | PlainObject => caught reqs
            | ExpressResponse =>
                {| decision :=
                     Respond (statusCode options) (message options) resetTime;
                   requests := reqs;
                   sentHeaders :=
                     [("X-RateLimit-Limit", max options);
                      ("X-RateLimit-Remaining", 0);
                      ("X-RateLimit-Reset", resetTime)];
                   logged := [LogWarn ("限流触发: " +:+ clientId)] |}
            end
          else
            let counted :=
              {| count := count clientRecord + 1;
                 startTime := startTime clientRecord |} in
            let reqs' := <[clientId := counted]> reqs in
            match res with
            | PlainObject => caught reqs'
            | ExpressResponse =>
                {| decision := Next;
                   requests := reqs';
                   sentHeaders :=
                     [("X-RateLimit-Limit", max options);
                      ("X-RateLimit-Remaining",
                       Z.max 0 (max options - count counted))];
                   logged := [] |}
            end
      end
  end.

Definition createLimiter (config : Config) :=
  limiter (merge defaultConfig config).

(** Successive requests of one client against one limiter, each with the
    clock reading at its arrival; the decisions, in order, and the final
    map. *)
Fixpoint serve (options : Options) (req : Request) (res : Response)
    (times : list Z) (reqs : gmap string ClientRecord)
    : list Decision * gmap string ClientRecord :=
  match times with
  | [] => ([], reqs)
  | t :: times' =>
      let r := limiter options req res t reqs in
      let '(ds, reqs') := serve options req res times' (requests r) in
      (decision r :: ds, reqs')
  end.


Definition api_config : Config :=
  {| cfg_windowMs := Some (60 * 60 * 1000);
     cfg_max := Some 1000;
     cfg_message := None;
     cfg_statusCode := None;
     cfg_skipSuccessfulRequests := None;
     cfg_skipFailedRequests := None |}.

Definition auth_config : Config :=
  {| cfg_windowMs := Some (15 * 60 * 1000);
     cfg_max := Some 5;
     cfg_message := Some "登录尝试过于频繁，请15分钟后再试";
     cfg_statusCode := None;
     cfg_skipSuccessfulRequests := None;
     cfg_skipFailedRequests := None |}.

Definition api := createLimiter api_config.
Definition auth := createLimiter auth_config.

(** [startCleanup]: one run of the interval callback when [Date.now()] reads
    [now].  A record is deleted when its window started more than the
    default window ago, whatever limiter wrote it. *)
Definition cleanup (now : Z) (reqs : gmap string ClientRecord)
    : gmap string ClientRecord :=
  filter (fun entry =>
            (now - startTime (snd entry) >? windowMs defaultConfig) = false)
         reqs.

(** The requests let through among some decisions. *)
Definition is_next (d : Decision) : bool :=
  match d with Next => true | Respond _ _ _ => false end.

Definition grants (ds : list Decision) : nat :=
  length (List.filter is_next ds).

End RateLimit.

(** ** Parsed documents, as the crawler queries them through cheerio *)

Module Dom.

(** An element in document order: its tag, its attributes and its text
    content (that of its descendants included). *)
Record Element := mkElement {
  tag : string;
  attrs : list (string * string);
  text : string
}.

Definition Document := list Element.

(** The selectors the crawler uses: ['title'] and ['meta[name="x"]']. *)
Inductive Selector :=
| ByTag (t : string)
| ByTagAttr (t a v : string).

Definition matches (sel : Selector) (e : Element) : bool :=
  match sel with
  | ByTag t => String.eqb (tag e) t
  | ByTagAttr t a v =>
      (String.eqb (tag e) t && bool_decide (JS.prop a (attrs e) = Some v))%bool
  end.

(** [$(selector)] *)
Definition select (sel : Selector) (doc : Document) : list Element :=
  List.filter (matches sel) doc.

(** [selection.attr(name)]: the attribute of the first selected element. *)
Definition attr (name : string) (selection : list Element) : option string :=
  match selection with
  | [] => None
  | e :: _ => JS.prop name (attrs e)
  end.

(** [selection.text()]: the texts of all selected elements, joined. *)
Definition text_of (selection : list Element) : string :=
  List.fold_right (fun e acc => text e +:+ acc) "" selection.

End Dom.

(** ** [services/crawler.js] *)

Module Crawler.

Import Url Dom.

(** An axios response. *)
Record AxiosResponse (B : Type) := mkAxiosResponse {
  status : Z;
  headers : list (string * string);
  data : B
}.
Arguments status {B} _.
Arguments headers {B} _.
Arguments data {B} _.

(** What the crawler calls but does not define.  [URL_new s] is
    [new URL(s)] and [URL_new_base s base] is [new URL(s, base)], [None]
    when the constructor throws; [axios_get href options] is the outcome of
    the request, the error message on the left; [cheerio_load] is the HTML
    parser; [no_options] is the empty options object. *)
Class Platform := {
  Body : Type;
  RequestOptions : Type;
  no_options : RequestOptions;
  URL_new : string -> option URL;
  URL_new_base : string -> string -> option URL;
  axios_get : string -> RequestOptions -> string + AxiosResponse Body;
  cheerio_load : Body -> Document
}.

Record PageMetadata := mkPageMetadata {
  title : string;
  description : string;
  keywords : string;
  canonical : string;
  viewport : string;
  ogTitle : string;
  ogDescription : string;
  ogImage : string
}.

Record LinkRef := mkLinkRef {
  link_url : string;
  link_text : string;
  external : bool
}.

Record CrawlData := mkCrawlData {
  metadata : PageMetadata;
  technologies : list string;
  links : list LinkRef
}.

Record CrawlResult := mkCrawlResult {
  url : string;
  result_status : Z;
  result_data : CrawlData
}.

(** [this.config] *)
Record Config := mkConfig {
  timeout : Z;
  maxRedirects : Z;
  rateLimit : Z;
  userAgent : string
}.

Definition config : Config :=
  {| timeout := 10000;
     maxRedirects := 3;
     rateLimit := 1000;
     userAgent :=
       "Mozilla/5.0 (compatible; EnterpriseCrawler/1.0; +https://yourdomain.com/bot)" |}.

(** [this.limiter], made once in the constructor.  The middleware module
    exports its factory as the module itself; the name [rateLimit] that the
    crawler imports is read here as that factory. *)
Definition limiter :=
  RateLimit.createLimiter
    {| RateLimit.cfg_windowMs := Some 1000;
       RateLimit.cfg_max := Some (rateLimit config);
       RateLimit.cfg_message := None;
       RateLimit.cfg_statusCode := None;
       RateLimit.cfg_skipSuccessfulRequests := None;
       RateLimit.cfg_skipFailedRequests := None |}.

(** [models/Website.js]: the fields of a website document that a crawl
    reads or writes, the [pre('save')] hook and the crawl-status method. *)
Module Website.

Record t := mk {
  domain : string;
  technologies : list string;
  metadata : option PageMetadata;
  lastCrawledAt : option Z;
  lastCrawlStatus : string;
  crawlError : option string;
  updatedAt : option Z
}.

(** The [pre('save')] hook. *)
Definition pre_save (time : Z) (this : t) : t :=
  {| domain :=
       if (JS.truthy (domain this) &&
           negb (String.prefix "http" (domain this)))%bool
       then "https://" +:+ domain this else domain this;
     technologies := technologies this;
     metadata := metadata this;
     lastCrawledAt := lastCrawledAt this;
     lastCrawlStatus := lastCrawlStatus this;
     crawlError := crawlError this;
     updatedAt := Some time |}.

(** [updateCrawlStatus(status, meta)] up to its [save]; [meta] is the
    [technologies] property of the argument, when it has one. *)
Definition updateCrawlStatus (time : Z) (status : string)
    (meta : option (list string)) (this : t) : t :=
  {| domain := domain this;
     technologies :=
       match meta with
       | Some found => JS.dedupe (technologies this ++ found)
       | None => technologies this
       end;
     metadata := metadata this;
     lastCrawledAt := Some time;
     lastCrawlStatus := status;
     crawlError := crawlError this;
     updatedAt := updatedAt this |}.

End Website.

(** The state shared by the calls: the limiter's map, the stored website
    documents by id, and the clock, which is what [Date.now()] and
    [new Date()] read. *)
Record World := mkWorld {
  limiterRequests : gmap string RateLimit.ClientRecord;
  websites : gmap string Website.t;
  now : Z
}.

(** How an awaited call ends. *)
Inductive Outcome (A : Type) :=
| Ok (a : A)
| Throw (message : string)
| Pending.
Arguments Ok {A} _.
Arguments Throw {A} _.
Arguments Pending {A}.

Section WithPlatform.

Context `{Platform}.

(** What a run does that can be seen from outside: a call of
    [crawlWebsite], a request, a parse, a line in the error log. *)
Inductive Event :=
| EvCrawl (url : string)
| EvFetch (href : string)
| EvParse (body : Body)
| EvLog (msg : string).

Definition M (A : Type) : Type := World -> Outcome A * World * list Event.

Definition ret {A} (a : A) : M A := fun w => (Ok a, w, []).

Definition bind {A B} (m : M A) (f : A -> M B) : M B :=
  fun w =>
    match m w with
    | (Ok a, w1, t1) =>
        match f a w1 with
        | (r, w2, t2) => (r, w2, t1 ++ t2)
        end
    | (Throw e, w1, t1) => (Throw e, w1, t1)
    | (Pending, w1, t1) => (Pending, w1, t1)
    end.

Definition throw {A} (e : string) : M A := fun w => (Throw e, w, []).

Definition emit (ev : Event) : M unit := fun w => (Ok tt, w, [ev]).

(** [try { m } catch (error) { handler(error.message) }] *)
Definition try_catch {A} (m : M A) (handler : string -> M A) : M A :=
  fun w =>
    match m w with
    | (Throw e, w1, t1) =>
        match handler e w1 with
        | (r, w2, t2) => (r, w2, t1 ++ t2)
        end
    | other => other
    end.

Notation "'let*' x ':=' m 'in' k" := (bind m (fun x => k))
  (at level 10, x name, m at level 100, k at level 200).
Notation "'run' m 'in' k" := (bind m (fun _ => k))
  (at level 10, m at level 100, k at level 200).

(** *** validateUrl *)
Definition validateUrl (url : string) : option URL :=
  match URL_new url with
  | None => None
  | Some parsed =>
      let parsed :=
        if String.eqb (protocol parsed) "http:"
        then set_protocol parsed "https:" else parsed in
      Some (set_pathname parsed (JS.collapse_slashes (pathname parsed)))
  end.

(** *** extractMetadata *)
Definition meta_content (name : string) (doc : Document) : option string :=
  attr "content" (select (ByTagAttr "meta" "name" name) doc).

Definition og_content (property : string) (doc : Document) : option string :=
  attr "content" (select (ByTagAttr "meta" "property" property) doc).

Definition extractMetadata (doc : Document) (parsedUrl : URL) : PageMetadata :=
  {| title := JS.trim (text_of (select (ByTag "title") doc));
     description := JS.js_or (meta_content "description" doc) "";
     keywords := JS.js_or (meta_content "keywords" doc) "";
     canonical :=
       JS.js_or (attr "href" (select (ByTagAttr "link" "rel" "canonical") doc))
                (href parsedUrl);
     viewport := JS.js_or (meta_content "viewport" doc) "";
     ogTitle := JS.js_or (og_content "og:title" doc) "";
     ogDescription := JS.js_or (og_content "og:description" doc) "";
     ogImage := JS.js_or (og_content "og:image" doc) "" |}.

(** *** detectTechnologies *)

(** [frameworkSignatures], in the order of [Object.entries]; each regular
    expression is the list of its alternatives. *)
Definition frameworkSignatures : list (string * list string) :=
  [("React", ["react"; "react-dom"]);
   ("Vue", ["vue"; "vue-router"]);
   ("Angular", ["angular"]);
   ("jQuery", ["jquery"])].

Definition regex_test (alternatives : list string) (s : string) : bool :=
  existsb (fun pat => JS.includes pat s) alternatives.

Definition script_technologies (el : Element) : list string :=
  let src := JS.js_or (attr "src" [el]) "" in
  List.map fst
    (List.filter (fun sig => regex_test (snd sig) src) frameworkSignatures).

Definition header_technology (name : string)
    (hs : list (string * string)) : list string :=
  match JS.prop name hs with
  | Some v => if JS.truthy v then [v] else []
  | None => []
  end.

Definition detectTechnologies (response : AxiosResponse Body)
    : M (list string) :=
  let fromHeaders :=
    header_technology "server" (headers response) ++
    header_technology "x-powered-by" (headers response) in
  run emit (EvParse (data response)) in
  let doc := cheerio_load (data response) in
  ret (JS.dedupe
         (fromHeaders ++
          List.concat (List.map script_technologies (select (ByTag "script") doc)))).

(** *** extractLinks *)
Definition link_of_anchor (parsedUrl : URL) (el : Element) : option LinkRef :=
  let baseUrl := protocol parsedUrl +:+ "//" +:+ host parsedUrl in
  let href := attr "href" [el] in
  if JS.js_not href then None
  else
    match URL_new_base (JS.js_or href "") baseUrl with
    | None => None
    | Some url =>
        Some {| link_url := Url.href url;
                link_text := JS.trim (text el);
                external := negb (String.eqb (hostname url) (hostname parsedUrl)) |}
    end.

Definition extractLinks (doc : Document) (parsedUrl : URL) : list LinkRef :=
  omap (link_of_anchor parsedUrl) (select (ByTag "a") doc).

(** *** applyRateLimit *)

(** The promise around one call of a limiter on two empty objects: it
    resolves when the limiter calls [next], and only then. *)
Definition acquire
    (middleware : RateLimit.Request -> RateLimit.Response -> Z ->
                  gmap string RateLimit.ClientRecord -> RateLimit.Result)
    : M unit :=
  fun w =>
    let r :=
      middleware
        (RateLimit.mkRequest None None None None) RateLimit.PlainObject
        (now w) (limiterRequests w) in
    let w' := {| limiterRequests := RateLimit.requests r;
                 websites := websites w;
                 now := now w |} in
    let logs :=
      omap (fun l => match l with
                     | RateLimit.LogError msg => Some (EvLog msg)
                     | RateLimit.LogWarn _ => None
                     end) (RateLimit.logged r) in
    match RateLimit.decision r with
    | RateLimit.Next => (Ok tt, w', logs)
    | RateLimit.Respond _ _ _ => (Pending, w', logs)
    end.

Definition applyRateLimit : M unit := acquire limiter.

(** *** crawlWebsite *)
Definition crawlWebsite (url : string) (options : RequestOptions)
    : M CrawlResult :=
  run emit (EvCrawl url) in
  try_catch
    (let* parsedUrl := match validateUrl url with
                       | Some p => ret p
                       | None => throw "无效的URL格式"
                       end in
     run applyRateLimit in
     run emit (EvFetch (href parsedUrl)) in
     let* response := match axios_get (href parsedUrl) options with
                      | inr r => ret r
                      | inl message => throw message
                      end in
     run emit (EvParse (data response)) in
     let doc := cheerio_load (data response) in
     let metadata := extractMetadata doc parsedUrl in
     let* technologies := detectTechnologies response in
     ret {| url := href parsedUrl;
            result_status := status response;
            result_data :=
              {| metadata := metadata;
                 technologies := technologies;
                 links := extractLinks doc parsedUrl |} |})
    (fun message =>
       run emit (EvLog ("爬取失败: " +:+ url)) in
       throw ("爬取失败: " +:+ message)).

(** *** batchCrawlWebsites *)
Record BatchResult := mkBatchResult {
  success : list CrawlResult;
  failed : list (string * string)
}.

Fixpoint batch_loop (urls : list string) (options : RequestOptions)
    (results : list CrawlResult) (errors : list (string * string))
    : M BatchResult :=
  match urls with
  | [] => ret {| success := results; failed := errors |}
  | url :: urls' =>
      let* step :=
        try_catch
          (let* result := crawlWebsite url options in
           ret (results ++ [result], errors))
          (fun message => ret (results, errors ++ [(url, message)])) in
      batch_loop urls' options (fst step) (snd step)
  end.

Definition batchCrawlWebsites (urls : list string)
    (options : RequestOptions) : M BatchResult :=
  batch_loop urls options [] [].

(** *** updateWebsiteData *)
Definition findById (websiteId : string) : M (option Website.t) :=
  fun w => (Ok (websites w !! websiteId), w, []).

(** [website.save()], the hook included; the store's own failures
    (validation, connection) are left out. *)
Definition save (websiteId : string) (website : Website.t) : M unit :=
  fun w =>
    (Ok tt,
     {| limiterRequests := limiterRequests w;
        websites := <[websiteId := Website.pre_save (now w) website]> (websites w);
        now := now w |},
     []).

(** [Website.findByIdAndUpdate(id, { lastCrawledAt, lastCrawlStatus,
    crawlError })] *)
Definition findByIdAndUpdate_failed (websiteId message : string) : M unit :=
  fun w =>
    (Ok tt,
     {| limiterRequests := limiterRequests w;
        websites :=
          match websites w !! websiteId with
          | None => websites w
          | Some website =>
              <[websiteId :=
                  {| Website.domain := Website.domain website;
                     Website.technologies := Website.technologies website;
                     Website.metadata := Website.metadata website;
                     Website.lastCrawledAt := Some (now w);
                     Website.lastCrawlStatus := "failed";
                     Website.crawlError := Some message;
                     Website.updatedAt := Website.updatedAt website |}]>
                (websites w)
          end;
        now := now w |},
     []).

Definition updateWebsiteData (websiteId : string)
    : M (Website.t * CrawlData) :=
  try_catch
    (let* found := findById websiteId in
     let* website := match found with
                     | Some website => ret website
                     | None => throw "网站记录不存在"
                     end in
     let* result := crawlWebsite (Website.domain website) no_options in
     let data := result_data result in
     let* time := (fun w => (Ok (now w), w, [])) in
     let website :=
       {| Website.domain := Website.domain website;
          Website.technologies := technologies data;
          Website.metadata := Some (metadata data);
          Website.lastCrawledAt := Some time;
          Website.lastCrawlStatus := "success";
          Website.crawlError := Website.crawlError website;
          Website.updatedAt := Website.updatedAt website |} in
     run save websiteId website in
     ret (Website.pre_save time website, data))
    (fun message =>
       run emit (EvLog ("更新网站数据失败: " +:+ websiteId)) in
       run findByIdAndUpdate_failed websiteId message in
       throw message).

(** *** deepCrawlWebsite *)
Record QueueEntry := mkQueueEntry {
  q_url : string;
  q_depth : Z
}.

(** The loop state: [visited], [results], [queue]. *)
Definition LoopState : Type :=
  gset string * list CrawlResult * list QueueEntry.

(** The links a successful visit pushes on the queue. *)
Definition enqueue (visited : gset string) (depth : Z)
    (found : list LinkRef) : list QueueEntry :=
  List.map (fun link => {| q_url := link_url link; q_depth := depth + 1 |})
    (List.filter
       (fun link => negb (bool_decide (link_url link ∈ visited)))
       (List.filter (fun link => negb (external link)) found)).

(** One iteration on the entry taken from the front of the queue. *)
Definition deepCrawl_step (maxDepth : Z) (visited : gset string)
    (results : list CrawlResult) (queue : list QueueEntry)
    (entry : QueueEntry) : M LoopState :=
  let url := q_url entry in
  let depth := q_depth entry in
  if ((depth >? maxDepth) || bool_decide (url ∈ visited))%bool
  then ret (visited, results, queue)
  else
    try_catch
      (let* result := crawlWebsite url no_options in
       let visited' := {[url]} ∪ visited in
       ret (visited',
            results ++ [result],
            queue ++ enqueue visited' depth (links (result_data result))))
      (fun message =>
         run emit (EvLog ("深度爬取失败: " +:+ url)) in
         ret (visited, results, queue)).

(** The [while] loop, for at most [fuel] iterations; [None] when the
    queue is not empty yet after [fuel] iterations. *)
Fixpoint deepCrawl_loop (fuel : nat) (maxDepth : Z) (visited : gset string)
    (results : list CrawlResult) (queue : list QueueEntry)
    : M (option (list CrawlResult)) :=
  match queue with
  | [] => ret (Some results)
  | entry :: queue' =>
      match fuel with
      | O => ret None
      | S fuel' =>
          let* st := deepCrawl_step maxDepth visited results queue' entry in
          deepCrawl_loop fuel' maxDepth (fst (fst st)) (snd (fst st)) (snd st)
      end
  end.

Definition deepCrawlWebsite (fuel : nat) (baseUrl : string) (maxDepth : Z)
    : M (option (list CrawlResult)) :=
  deepCrawl_loop fuel maxDepth ∅ [] [{| q_url := baseUrl; q_depth := 0 |}].

(** *** Observing a run *)

(** A world in which nothing has happened yet. *)
Definition idle : World :=
  {| limiterRequests := ∅; websites := ∅; now := 0 |}.

(** What one visit of [url] returns, and what it does. *)
Definition crawled (url : string) (options : RequestOptions)
    : Outcome CrawlResult :=
  fst (fst (crawlWebsite url options idle)).

Definition crawl_trace (url : string) (options : RequestOptions)
    : list Event :=
  snd (crawlWebsite url options idle).

Definition ok_of {A} (o : Outcome A) : option A :=
  match o with Ok a => Some a | _ => None end.

Definition error_of {A} (o : Outcome A) : option string :=
  match o with Throw message => Some message | _ => None end.


Definition crawl_calls (t : list Event) : list string :=
  omap (fun ev => match ev with EvCrawl u => Some u | _ => None end) t.


Definition logs (t : list Event) : list string :=
  omap (fun ev => match ev with EvLog m => Some m | _ => None end) t.


(** *** The moves of the deep crawl

    An iteration of the loop on [entry] is one of three moves: the entry
    is discarded, its page is visited, or the visit fails. *)
Inductive step_kind (maxDepth : Z) (visited : gset string)
    (results : list CrawlResult) (queue : list QueueEntry)
    (entry : QueueEntry) : LoopState -> list Event -> Prop :=
| step_skip :
    ((q_depth entry >? maxDepth)
     || bool_decide (q_url entry ∈ visited))%bool = true ->
    step_kind maxDepth visited results queue entry
      (visited, results, queue) []
| step_visit result :
    q_depth entry <= maxDepth -> q_url entry ∉ visited ->
    crawled (q_url entry) no_options = Ok result ->
    step_kind maxDepth visited results queue entry
      ({[q_url entry]} ∪ visited, results ++ [result],
       queue ++ enqueue ({[q_url entry]} ∪ visited) (q_depth entry)
                        (links (result_data result)))
      (crawl_trace (q_url entry) no_options)
| step_fail message :
    q_depth entry <= maxDepth -> q_url entry ∉ visited ->
    crawled (q_url entry) no_options = Throw message ->
    step_kind maxDepth visited results queue entry
      (visited, results, queue)
      (crawl_trace (q_url entry) no_options ++
       [EvLog ("深度爬取失败: " +:+ q_url entry)]).

(** *** Reaching a page from the seed

    [linked_at baseUrl d url]: [url] stands [d] links away from the seed,
    along links to the same site found on pages whose visit succeeds. *)
Inductive linked_at (baseUrl : string) : Z -> string -> Prop :=
| linked_seed : linked_at baseUrl 0 baseUrl
| linked_step d page result link :
    linked_at baseUrl d page ->
    crawled page no_options = Ok result ->
    link ∈ links (result_data result) ->
    external link = false ->
    linked_at baseUrl (d + 1) (link_url link).

(** *** A measure for the loop of the deep crawl *)

(** The iterations an entry can cause when every page has at most [b]
    anchors and [levels] more depths lie within the limit: its own, and
    those of the entries it pushes. *)
Fixpoint budget (b levels : nat) : nat :=
  match levels with
  | O => 1
  | S levels' => 1 + b * budget b levels'
  end%nat.

Definition entry_budget (b : nat) (maxDepth : Z) (entry : QueueEntry) : nat :=
  budget b (Z.to_nat (maxDepth + 1 - q_depth entry)).

Definition queue_budget (b : nat) (maxDepth : Z) (queue : list QueueEntry)
    : nat :=
  List.fold_right (fun entry n => (entry_budget b maxDepth entry + n)%nat)
                  O queue.

(** The number of anchors on the page at [href], and the largest such
    number over a list of pages. *)
Definition anchors_at (href : string) : nat :=
  match axios_get href no_options with
  | inr response =>
      length (select (ByTag "a") (cheerio_load (data response)))
  | inl _ => O
  end.

Definition widest (pages : list string) : nat :=
  max_list (anchors_at <$> pages).

End WithPlatform.

End Crawler.

(** ** A concrete platform, for closed examples

    [URL_new] and [URL_new_base] below accept plain lower-case [http] and
    [https] URLs (no credentials, escapes, dot segments or blanks),
    references relative to them and plain [mailto:] addresses, and agree
    with the platform's [URL] class there; anything else is refused.  A response body is given as the
    document it parses to, and the network is a finite table from URL to
    response: a request for a URL outside the table times out. *)

Module Toy.

Import Url Dom Crawler.

Fixpoint break (stop : ascii -> bool) (s : string) : string * string :=
  match s with
  | EmptyString => (EmptyString, EmptyString)
  | String c s' =>
      if stop c then (EmptyString, s)
      else (String c (fst (break stop s')), snd (break stop s'))
  end.

Fixpoint strip_prefix (pre s : string) : option string :=
  match pre, s with
  | EmptyString, _ => Some s
  | String a pre', String b s' =>
      if Ascii.eqb a b then strip_prefix pre' s' else None
  | String _ _, EmptyString => None
  end.

Fixpoint all_chars (ok : ascii -> bool) (s : string) : bool :=
  match s with
  | EmptyString => true
  | String c s' => (ok c && all_chars ok s')%bool
  end.

Definition one_of (cs : string) (c : ascii) : bool :=
  existsb (Ascii.eqb c) (String.list_ascii_of_string cs).

Definition is_digit (c : ascii) : bool :=
  let n := nat_of_ascii c in (Nat.leb 48 n && Nat.leb n 57)%bool.

Definition is_lower (c : ascii) : bool :=
  let n := nat_of_ascii c in (Nat.leb 97 n && Nat.leb n 122)%bool.

Definition is_upper (c : ascii) : bool :=
  let n := nat_of_ascii c in (Nat.leb 65 n && Nat.leb n 90)%bool.

Definition host_char (c : ascii) : bool :=
  (is_lower c || is_digit c || one_of ".-" c)%bool.

Definition path_char (c : ascii) : bool :=
  (is_lower c || is_upper c || is_digit c || one_of "/._~-" c)%bool.

Definition query_char (c : ascii) : bool :=
  (path_char c || one_of "?=&#" c)%bool.

Definition drop1 (s : string) : string :=
  match s with EmptyString => EmptyString | String _ s' => s' end.

(** After the scheme and the two slashes. *)
Definition parse_after_scheme (proto rest : string) : option URL :=
  let '(authority, tail) := break (one_of "/?#") rest in
  let '(name, colon_port) := break (one_of ":") authority in
  let '(path, tail2) := break (one_of "?#") tail in
  let '(query, fragment) := break (one_of "#") tail2 in
  if (JS.truthy name && all_chars host_char name &&
      all_chars is_digit (drop1 colon_port) &&
      negb (String.eqb colon_port ":") &&
      all_chars path_char path && negb (JS.includes "/." path) &&
      all_chars query_char query && all_chars query_char fragment)%bool
  then Some {| protocol := proto;
               hostname := name;
               port := if String.eqb (drop1 colon_port) (default_port proto)
                       then "" else drop1 colon_port;
               pathname := if JS.truthy path then path else "/";
               search := if String.eqb query "?" then "" else query;
               hash := if String.eqb fragment "#" then "" else fragment;
               opaque := false |}
  else None.

(** After [mailto:]: an address, kept as an opaque path. *)
Definition parse_mailto (rest : string) : option URL :=
  if (JS.truthy rest &&
      all_chars (fun c => path_char c || one_of "@" c)%bool rest)%bool
  then Some {| protocol := "mailto:"; hostname := ""; port := "";
               pathname := rest; search := ""; hash := ""; opaque := true |}
  else None.

Definition URL_new (s : string) : option URL :=
  match strip_prefix "http://" s, strip_prefix "https://" s,
        strip_prefix "mailto:" s with
  | Some rest, _, _ => parse_after_scheme "http:" rest
  | None, Some rest, _ => parse_after_scheme "https:" rest
  | None, None, Some rest => parse_mailto rest
  | None, None, None => None
  end.

(** The path up to and including its last slash. *)
Fixpoint dirname (s : string) : string :=
  match s with
  | EmptyString => EmptyString
  | String c s' =>
      match dirname s' with
      | EmptyString => if Ascii.eqb c "/"%char then "/" else EmptyString
      | d => String c d
      end
  end.

Definition URL_new_base (s base : string) : option URL :=
  if JS.includes ":" (fst (break (one_of "/?#") s)) then URL_new s
  else
    match URL_new base with
    | None => None
    | Some b =>
        let origin := protocol b +:+ "//" +:+ host b in
        if String.prefix "//" s then URL_new (protocol b +:+ s)
        else if String.prefix "/" s then URL_new (origin +:+ s)
        else if String.prefix "?" s then URL_new (origin +:+ pathname b +:+ s)
        else if String.prefix "#" s
        then URL_new (origin +:+ pathname b +:+ search b +:+ s)
        else if JS.truthy s then URL_new (origin +:+ dirname (pathname b) +:+ s)
        else URL_new (origin +:+ pathname b +:+ search b)
    end.

Definition Web := list (string * AxiosResponse Document).

Fixpoint lookup_page (href : string) (web : Web)
    : option (AxiosResponse Document) :=
  match web with
  | [] => None
  | (h, r) :: web' => if String.eqb h href then Some r else lookup_page href web'
  end.

Definition axios_get (web : Web) (href : string) (_ : unit)
    : string + AxiosResponse Document :=
  match lookup_page href web with
  | Some r => inr r
  | None => inl "timeout of 10000ms exceeded"
  end.

Definition platform (web : Web) : Platform :=
  {| Body := Document;
     RequestOptions := unit;
     no_options := tt;
     Crawler.URL_new := URL_new;
     Crawler.URL_new_base := URL_new_base;
     Crawler.axios_get := axios_get web;
     cheerio_load := fun doc => doc |}.

Definition a (target label : string) : Element :=
  {| tag := "a"; attrs := [("href", target)]; text := label |}.

Definition script (src : string) : Element :=
  {| tag := "script"; attrs := [("src", src)]; text := "" |}.

Definition page (hs : list (string * string)) (doc : Document)
    : AxiosResponse Document :=
  {| status := 200; headers := hs; data := doc |}.

(** A site of two pages.  The home page links to the other page, twice to
    a page that does not answer, and to another site. *)
Definition shop : Web :=
  [("https://example.com/",
    page [("server", "nginx")]
         [script "/static/react-dom.min.js";
          a "/about" "About";
          a "/missing" "Lost";
          a "/missing" "Lost again";
          a "https://other.org/" "Partner"]);
   ("https://example.com/about", page [] [a "/" "Home"])].






(** A limiter for one request per second, and a request as a server
    receives it. *)
Definition one_per_second : RateLimit.Options :=
  RateLimit.merge RateLimit.defaultConfig
    {| RateLimit.cfg_windowMs := Some 1000;
       RateLimit.cfg_max := Some 1;
       RateLimit.cfg_message := None;
       RateLimit.cfg_statusCode := None;
       RateLimit.cfg_skipSuccessfulRequests := None;
       RateLimit.cfg_skipFailedRequests := None |}.

(** The default limiter with [skipFailedRequests] switched on. *)
Definition skipping : RateLimit.Options :=
  RateLimit.merge RateLimit.defaultConfig
    {| RateLimit.cfg_windowMs := None;
       RateLimit.cfg_max := None;
       RateLimit.cfg_message := None;
       RateLimit.cfg_statusCode := None;
       RateLimit.cfg_skipSuccessfulRequests := None;
       RateLimit.cfg_skipFailedRequests := Some true |}.

Definition visitor : RateLimit.Request :=
  {| RateLimit.ip := Some "203.0.113.7";
     RateLimit.headers := Some [];
     RateLimit.connection := Some None;
     RateLimit.method := Some "GET" |}.

End Toy.

(** * Properties *)

(** ** Strings *)

Lemma collapse_slashes_head (c : ascii) (s : string) :
  exists t, JS.collapse_slashes (String c s) = String c t.
Proof.
  revert c. induction s as [|c' s IH]; intros c.
  - exists EmptyString. reflexivity.
  - cbn [JS.collapse_slashes].
    destruct (Ascii.eqb c "/" && Ascii.eqb c' "/")%bool eqn:E.
    + apply andb_prop in E as [Ec Ec'].
      apply Ascii.eqb_eq in Ec, Ec'. subst c c'.
      apply (IH "/"%char).
    + eexists. reflexivity.
Qed.

Lemma collapse_slashes_single (s : string) :
  JS.has_double_slash (JS.collapse_slashes s) = false.
Proof.
  induction s as [|c s IH]; [reflexivity|].
  destruct s as [|c' s']; [reflexivity|].
  change (JS.collapse_slashes (String c (String c' s')))
    with (if (Ascii.eqb c "/" && Ascii.eqb c' "/")%bool
          then JS.collapse_slashes (String c' s')
          else String c (JS.collapse_slashes (String c' s'))).
  destruct (Ascii.eqb c "/" && Ascii.eqb c' "/")%bool eqn:E; [exact IH|].
  destruct (collapse_slashes_head c' s') as [t Ht].
  rewrite Ht in IH |- *.
  cbn [JS.has_double_slash]. cbn [JS.has_double_slash] in IH.
  rewrite E. exact IH.
Qed.

Section Facts.

Import Url Dom Crawler.
Context `{Platform}.

(** ** One visit *)

Lemma acquire_resolves (options : RateLimit.Options) (w : World) :
  acquire (RateLimit.limiter options) w = (Ok tt, w, [EvLog "限流中间件错误:"]).
Proof.
  destruct w as [reqs sites t]. reflexivity.
Qed.

(** The three ways a visit can go. *)
Lemma crawlWebsite_run (url : string) (options : RequestOptions) (w : World) :
  crawlWebsite url options w =
  match validateUrl url with
  | None =>
      (Throw "爬取失败: 无效的URL格式", w,
       [EvCrawl url; EvLog ("爬取失败: " +:+ url)])
  | Some p =>
      match axios_get (href p) options with
      | inl e =>
          (Throw ("爬取失败: " +:+ e), w,
           [EvCrawl url; EvLog "限流中间件错误:"; EvFetch (href p);
            EvLog ("爬取失败: " +:+ url)])
      | inr r =>
          (Ok {| url := href p;
                 result_status := status r;
                 result_data :=
                   {| metadata := extractMetadata (cheerio_load (data r)) p;
                      technologies :=
                        JS.dedupe
                          ((header_technology "server" (headers r) ++
                            header_technology "x-powered-by" (headers r)) ++
                           concat (map script_technologies
                                     (select (ByTag "script")
                                             (cheerio_load (data r)))));
                      links := extractLinks (cheerio_load (data r)) p |} |},
           w,
           [EvCrawl url; EvLog "限流中间件错误:"; EvFetch (href p);
            EvParse (data r); EvParse (data r)])
      end
  end.
Proof.
  unfold crawlWebsite, applyRateLimit, limiter, RateLimit.createLimiter,
    detectTechnologies.
  unfold bind, try_catch, emit, ret, throw.
  destruct (validateUrl url) as [p|]; [|reflexivity].
  cbv beta iota. rewrite !acquire_resolves.
  destruct (axios_get (href p) options) as [e|r]; reflexivity.
Qed.

Lemma crawlWebsite_frame (url : string) (options : RequestOptions) (w : World) :
  crawlWebsite url options w = (crawled url options, w, crawl_trace url options).
Proof.
  unfold crawled, crawl_trace. rewrite (crawlWebsite_run url options idle).
  rewrite crawlWebsite_run.
  destruct (validateUrl url) as [p|]; [|reflexivity].
  destruct (axios_get (href p) options); reflexivity.
Qed.

Lemma crawled_settles (url : string) (options : RequestOptions) :
  crawled url options <> Pending.
Proof.
  unfold crawled. rewrite crawlWebsite_run.
  destruct (validateUrl url) as [p|]; [|discriminate].
  destruct (axios_get (href p) options); discriminate.
Qed.

(** A visit calls [crawlWebsite] once and requests at most one URL. *)
Lemma crawl_trace_calls (url : string) (options : RequestOptions) :
  crawl_calls (crawl_trace url options) = [url].
Proof.
  unfold crawl_trace. rewrite crawlWebsite_run.
  destruct (validateUrl url) as [p|]; [|reflexivity].
  destruct (axios_get (href p) options); reflexivity.
Qed.

(** ** validateUrl *)

(** C6 (amended).  For every URL that [validateUrl] accepts, the result has
    scheme [https:] whenever the parsed URL had scheme [http:], its path
    has no two slashes in a row unless the URL has an opaque path, and its
    fragment is the parsed one, unchanged. *)
Theorem validateUrl_normalizes (url : string) (p : URL) :
  validateUrl url = Some p ->
  exists parsed,
    URL_new url = Some parsed /\
    (protocol parsed = "http:" -> protocol p = "https:") /\
    (opaque parsed = false -> JS.has_double_slash (pathname p) = false) /\
    hash p = hash parsed.
Proof.
  unfold validateUrl. destruct (URL_new url) as [parsed|]; [|discriminate].
  intros [= <-]. exists parsed. split; [reflexivity|].
  destruct (String.eqb (protocol parsed) "http:") eqn:E.
  - repeat split.
    + intros _. unfold set_pathname, set_protocol; cbn.
      destruct (opaque parsed); reflexivity.
    + intros Hop. unfold set_pathname, set_protocol; cbn. rewrite Hop; cbn.
      apply collapse_slashes_single.
    + unfold set_pathname, set_protocol; cbn.
      destruct (opaque parsed); reflexivity.
  - repeat split.
    + intros Hp. rewrite Hp in E. discriminate.
    + intros Hop. unfold set_pathname. rewrite Hop; cbn.
      apply collapse_slashes_single.
    + unfold set_pathname. destruct (opaque parsed); reflexivity.
Qed.

(** ** extractMetadata *)

(** C7 (amended).  Extraction is total and every field is a string; a field
    whose source element is absent from the document is the empty string,
    except [canonical], which is then the address of the page itself. *)
Theorem extractMetadata_absent (doc : Document) (parsedUrl : URL) :
  let m := extractMetadata doc parsedUrl in
  (select (ByTag "title") doc = [] -> title m = "") /\
  (select (ByTagAttr "meta" "name" "description") doc = [] ->
   description m = "") /\
  (select (ByTagAttr "meta" "name" "keywords") doc = [] -> keywords m = "") /\
  (select (ByTagAttr "link" "rel" "canonical") doc = [] ->
   canonical m = href parsedUrl) /\
  (select (ByTagAttr "meta" "name" "viewport") doc = [] -> viewport m = "") /\
  (select (ByTagAttr "meta" "property" "og:title") doc = [] ->
   ogTitle m = "") /\
  (select (ByTagAttr "meta" "property" "og:description") doc = [] ->
   ogDescription m = "") /\
  (select (ByTagAttr "meta" "property" "og:image") doc = [] -> ogImage m = "").
Proof.
  cbn zeta. unfold extractMetadata, meta_content, og_content; cbn [title
    description keywords canonical viewport ogTitle ogDescription ogImage].
  repeat split; intros ->; reflexivity.
Qed.

(** ** extractLinks *)


(** ** crawlWebsite *)


(** ** applyRateLimit *)


(** ** batchCrawlWebsites *)

Lemma batch_loop_run (urls : list string) (options : RequestOptions)
    (results : list CrawlResult) (errors : list (string * string))
    (w : World) :
  batch_loop urls options results errors w =
  (Ok {| success :=
           results ++ omap (fun u => ok_of (crawled u options)) urls;
         failed :=
           errors ++
           omap (fun u => pair u <$> error_of (crawled u options)) urls |},
   w,
   concat (map (fun u => crawl_trace u options) urls)).
Proof.
  revert results errors.
  induction urls as [|u urls IH]; intros results errors.
  - cbn. by rewrite !app_nil_r.
  - cbn [batch_loop]. unfold bind at 1. unfold try_catch, bind.
    rewrite crawlWebsite_frame.
    pose proof (crawled_settles u options) as Hset.
    destruct (crawled u options) as [r|m|] eqn:Hu; [| |done].
    + cbn [ret fst snd]. rewrite IH. cbn. rewrite Hu. cbn.
      by rewrite !app_nil_r, <- !app_assoc.
    + cbn [ret fst snd]. rewrite IH. cbn. rewrite Hu. cbn.
      by rewrite !app_nil_r, <- !app_assoc.
Qed.



(** ** updateWebsiteData *)

(** A successful update stores the technologies of this crawl, and those
    only: whatever the record held before is overwritten. *)
Lemma updateWebsiteData_stores (websiteId : string) (w w' : World)
    (saved : Website.t) (found : CrawlData) (t : list Event) :
  updateWebsiteData websiteId w = (Ok (saved, found), w', t) ->
  Website.technologies <$> (websites w' !! websiteId)
  = Some (technologies found).
Proof.
  unfold updateWebsiteData, try_catch, bind, findById.
  destruct (websites w !! websiteId) as [website|]; [|discriminate].
  cbv beta iota. unfold ret at 1. cbv beta iota.
  rewrite crawlWebsite_frame.
  destruct (crawled (Website.domain website) no_options) as [r|m|];
    [|discriminate..].
  cbn. intros [= <- <- <- <-]. cbn. by rewrite lookup_insert_eq.
Qed.

End Facts.

Section DeepCrawl.

Import Url Dom Crawler.
Context `{Platform}.

(** One iteration, spelled out. *)
Lemma deepCrawl_step_run (maxDepth : Z) (visited : gset string)
    (results : list CrawlResult) (queue : list QueueEntry)
    (entry : QueueEntry) (w : World) :
  deepCrawl_step maxDepth visited results queue entry w =
  if ((q_depth entry >? maxDepth) || bool_decide (q_url entry ∈ visited))%bool
  then (Ok (visited, results, queue), w, [])
  else
    match crawled (q_url entry) no_options with
    | Ok result =>
        (Ok ({[q_url entry]} ∪ visited,
             results ++ [result],
             queue ++ enqueue ({[q_url entry]} ∪ visited) (q_depth entry)
                              (links (result_data result))),
         w, crawl_trace (q_url entry) no_options)
    | Throw _ =>
        (Ok (visited, results, queue), w,
         crawl_trace (q_url entry) no_options ++
         [EvLog ("深度爬取失败: " +:+ q_url entry)])
    | Pending => (Pending, w, crawl_trace (q_url entry) no_options)
    end.
Proof.
  unfold deepCrawl_step.
  destruct ((q_depth entry >? maxDepth) || bool_decide (q_url entry ∈ visited))%bool;
    [reflexivity|].
  unfold try_catch, bind. rewrite crawlWebsite_frame.
  destruct (crawled (q_url entry) no_options); cbn; by rewrite ?app_nil_r.
Qed.

(** An iteration settles, leaves the world alone, and is one of the three
    moves. *)
Lemma deepCrawl_step_kind (maxDepth : Z) (visited : gset string)
    (results : list CrawlResult) (queue : list QueueEntry)
    (entry : QueueEntry) (w : World) :
  exists st t,
    deepCrawl_step maxDepth visited results queue entry w = (Ok st, w, t) /\
    step_kind maxDepth visited results queue entry st t.
Proof.
  rewrite deepCrawl_step_run.
  destruct ((q_depth entry >? maxDepth) || bool_decide (q_url entry ∈ visited))%bool
    eqn:Hskip.
  - eexists _, _. split; [reflexivity|]. by constructor.
  - apply orb_false_elim in Hskip as [Hd Hv].
    rewrite Z.gtb_ltb in Hd. apply Z.ltb_ge in Hd. apply bool_decide_eq_false in Hv.
    pose proof (crawled_settles (q_url entry) no_options) as Hset.
    destruct (crawled (q_url entry) no_options) as [r|m|] eqn:Hc; [| |done].
    + eexists _, _. split; [reflexivity|]. by apply step_visit.
    + eexists _, _. split; [reflexivity|]. by eapply step_fail.
Qed.

(** The loop, one iteration unrolled. *)
Lemma deepCrawl_loop_unroll (fuel : nat) (maxDepth : Z) (visited : gset string)
    (results : list CrawlResult) (entry : QueueEntry)
    (queue : list QueueEntry) (w : World) :
  exists st t,
    step_kind maxDepth visited results queue entry st t /\
    deepCrawl_loop (S fuel) maxDepth visited results (entry :: queue) w =
    (fst (fst (deepCrawl_loop fuel maxDepth (fst (fst st)) (snd (fst st))
                              (snd st) w)),
     snd (fst (deepCrawl_loop fuel maxDepth (fst (fst st)) (snd (fst st))
                              (snd st) w)),
     t ++ snd (deepCrawl_loop fuel maxDepth (fst (fst st)) (snd (fst st))
                              (snd st) w)).
Proof.
  destruct (deepCrawl_step_kind maxDepth visited results queue entry w)
    as (st & t & Hrun & Hkind).
  exists st, t. split; [exact Hkind|].
  cbn [deepCrawl_loop]. unfold bind. rewrite Hrun.
  destruct (deepCrawl_loop fuel maxDepth _ _ _ w) as [[r w2] t2].
  reflexivity.
Qed.

(** The loop never touches the world. *)
Lemma deepCrawl_loop_world (fuel : nat) (maxDepth : Z) :
  forall visited results queue w,
    snd (fst (deepCrawl_loop fuel maxDepth visited results queue w)) = w.
Proof.
  induction fuel as [|fuel IH]; intros visited results queue w.
  - destruct queue; reflexivity.
  - destruct queue as [|entry queue]; [reflexivity|].
    destruct (deepCrawl_loop_unroll fuel maxDepth visited results entry queue w)
      as (st & t & _ & ->).
    cbn. apply IH.
Qed.

(** ** Termination *)

Lemma budget_pos (b levels : nat) : (1 <= budget b levels)%nat.
Proof. destruct levels; cbn; lia. Qed.

Lemma entry_budget_within (b : nat) (maxDepth : Z) (entry : QueueEntry) :
  q_depth entry <= maxDepth ->
  entry_budget b maxDepth entry
  = (1 + b * budget b (Z.to_nat (maxDepth + 1 - (q_depth entry + 1))))%nat.
Proof.
  intros Hd. unfold entry_budget.
  replace (maxDepth + 1 - q_depth entry)
    with (Z.succ (maxDepth + 1 - (q_depth entry + 1))) by lia.
  rewrite Z2Nat.inj_succ by lia. reflexivity.
Qed.

Lemma queue_budget_cons (b : nat) (maxDepth : Z) (entry : QueueEntry)
    (queue : list QueueEntry) :
  queue_budget b maxDepth (entry :: queue)
  = (entry_budget b maxDepth entry + queue_budget b maxDepth queue)%nat.
Proof. reflexivity. Qed.

Lemma queue_budget_app (b : nat) (maxDepth : Z) (q1 q2 : list QueueEntry) :
  queue_budget b maxDepth (q1 ++ q2)
  = (queue_budget b maxDepth q1 + queue_budget b maxDepth q2)%nat.
Proof.
  induction q1 as [|e q1 IH]; [reflexivity|].
  rewrite <- app_comm_cons, !queue_budget_cons, IH. lia.
Qed.

Lemma queue_budget_enqueue (b : nat) (maxDepth : Z) (visited : gset string)
    (depth : Z) (found : list LinkRef) :
  (length found <= b)%nat ->
  (queue_budget b maxDepth (enqueue visited depth found)
   <= b * budget b (Z.to_nat (maxDepth + 1 - (depth + 1))))%nat.
Proof.
  intros Hb. unfold enqueue.
  set (pushed := List.filter _ (List.filter _ found)).
  assert (Hlen : (length pushed <= b)%nat).
  { subst pushed.
    etransitivity; [apply List.filter_length_le|].
    etransitivity; [apply List.filter_length_le|]. exact Hb. }
  clearbody pushed.
  assert (Hsum :
    queue_budget b maxDepth
      (map (fun link => {| q_url := link_url link; q_depth := depth + 1 |}) pushed)
    = (length pushed * budget b (Z.to_nat (maxDepth + 1 - (depth + 1))))%nat).
  { clear Hlen. induction pushed as [|l pushed IH]; [reflexivity|].
    cbn [map length]. rewrite queue_budget_cons, IH.
    unfold entry_budget. cbn [q_depth]. lia. }
  rewrite Hsum. apply Nat.mul_le_mono_r. exact Hlen.
Qed.

Lemma length_omap_le {A B} (f : A -> option B) (l : list A) :
  (length (omap f l) <= length l)%nat.
Proof.
  induction l as [|x l IH]; [done|]. cbn. destruct (f x); cbn; lia.
Qed.

(** On a finite web no page yields more links than the widest page has
    anchors. *)
Lemma crawled_links_bound (pages : list string) (url : string)
    (result : CrawlResult) :
  (forall href response,
      axios_get href no_options = inr response -> href ∈ pages) ->
  crawled url no_options = Ok result ->
  (length (links (result_data result)) <= widest pages)%nat.
Proof.
  intros Hfin. unfold crawled. rewrite crawlWebsite_run.
  destruct (validateUrl url) as [p|]; [|discriminate].
  destruct (axios_get (href p) no_options) as [e|response] eqn:Hget;
    [discriminate|].
  intros [= <-]. cbn.
  etransitivity; [apply length_omap_le|].
  apply max_list_elem_of_le, list_elem_of_fmap.
  exists (href p). split; [|by eapply Hfin].
  unfold anchors_at. by rewrite Hget.
Qed.

Lemma deepCrawl_loop_exhausts (b : nat) (maxDepth : Z) :
  (forall url result,
      crawled url no_options = Ok result ->
      (length (links (result_data result)) <= b)%nat) ->
  forall fuel visited results queue w,
    (queue_budget b maxDepth queue <= fuel)%nat ->
    exists found t,
      deepCrawl_loop fuel maxDepth visited results queue w
      = (Ok (Some found), w, t).
Proof.
  intros Hb. induction fuel as [|fuel IH]; intros visited results queue w Hfuel.
  - destruct queue as [|entry queue]; [by eexists _, _|].
    rewrite queue_budget_cons in Hfuel.
    pose proof (budget_pos b (Z.to_nat (maxDepth + 1 - q_depth entry))).
    unfold entry_budget in Hfuel. lia.
  - destruct queue as [|entry queue]; [by eexists _, _|].
    destruct (deepCrawl_loop_unroll fuel maxDepth visited results entry queue w)
      as (st & t & Hkind & ->).
    rewrite queue_budget_cons in Hfuel.
    assert (Hnext : (queue_budget b maxDepth (snd st) <= fuel)%nat).
    { destruct Hkind as [Hskip|result Hd Hv Hc|message Hd Hv Hc]; cbn [snd].
      - pose proof (budget_pos b (Z.to_nat (maxDepth + 1 - q_depth entry))).
        unfold entry_budget in Hfuel. lia.
      - rewrite queue_budget_app.
        pose proof (queue_budget_enqueue b maxDepth ({[q_url entry]} ∪ visited)
                      (q_depth entry) _ (Hb _ _ Hc)).
        rewrite (entry_budget_within b maxDepth entry Hd) in Hfuel. lia.
      - pose proof (budget_pos b (Z.to_nat (maxDepth + 1 - q_depth entry))).
        unfold entry_budget in Hfuel. lia. }
    destruct (IH (fst (fst st)) (snd (fst st)) (snd st) w Hnext)
      as (found & t' & ->).
    by eexists _, _.
Qed.

(** More fuel than needed changes nothing. *)
Lemma deepCrawl_loop_more_fuel (maxDepth : Z) :
  forall fuel fuel' visited results queue w found w' t,
    (fuel <= fuel')%nat ->
    deepCrawl_loop fuel maxDepth visited results queue w
    = (Ok (Some found), w', t) ->
    deepCrawl_loop fuel' maxDepth visited results queue w
    = (Ok (Some found), w', t).
Proof.
  induction fuel as [|fuel IH];
    intros fuel' visited results queue w found w' t Hle Hrun.
  - destruct queue; [|discriminate]. destruct fuel'; exact Hrun.
  - destruct queue as [|entry queue]; [destruct fuel'; exact Hrun|].
    destruct fuel' as [|fuel']; [lia|].
    cbn [deepCrawl_loop] in Hrun |- *. unfold bind in Hrun |- *.
    destruct (deepCrawl_step maxDepth visited results queue entry w)
      as [[[st|m|] w1] t1]; [|discriminate..].
    destruct (deepCrawl_loop fuel maxDepth _ _ _ w1) as [[r w2] t2] eqn:Hin.
    injection Hrun as -> -> <-.
    erewrite IH; [reflexivity|lia|exact Hin].
Qed.

(** C10.  On a finite static web (every page that answers is among
    [pages]) the deep crawl terminates for every seed and every depth
    limit, those at or above zero included: some number of iterations
    exhausts the queue, and any larger allowance gives the same results
    and the same trace. *)
Theorem deepCrawlWebsite_terminates (pages : list string) (baseUrl : string)
    (maxDepth : Z) (w : World) :
  (forall href response,
      axios_get href no_options = inr response -> href ∈ pages) ->
  exists enough found t,
    forall fuel,
      (enough <= fuel)%nat ->
      deepCrawlWebsite fuel baseUrl maxDepth w = (Ok (Some found), w, t).
Proof.
  intros Hfin.
  set (b := widest pages).
  set (enough :=
         queue_budget b maxDepth [{| q_url := baseUrl; q_depth := 0 |}]).
  destruct (deepCrawl_loop_exhausts b maxDepth
              (fun url result => crawled_links_bound pages url result Hfin)
              enough ∅ [] [{| q_url := baseUrl; q_depth := 0 |}] w)
    as (found & t & Hrun); [done|].
  exists enough, found, t. intros fuel Hfuel.
  unfold deepCrawlWebsite.
  by apply (deepCrawl_loop_more_fuel maxDepth enough fuel).
Qed.

(** ** Visits and failures along a run *)






Lemma deepCrawl_loop_returns (maxDepth : Z) :
  forall fuel visited results queue w,
    exists found,
      fst (fst (deepCrawl_loop fuel maxDepth visited results queue w))
      = Ok found.
Proof.
  induction fuel as [|fuel IH]; intros visited results queue w.
  - destruct queue; by eexists.
  - destruct queue as [|entry queue]; [by eexists|].
    destruct (deepCrawl_loop_unroll fuel maxDepth visited results entry queue w)
      as (st & t & _ & ->).
    cbn [fst]. apply IH.
Qed.

Lemma deepCrawl_loop_logs_failures (maxDepth : Z) (url message : string) :
  crawled url no_options = Throw message ->
  forall fuel visited results queue w,
    url ∈ crawl_calls (snd (deepCrawl_loop fuel maxDepth visited results queue w)) ->
    ("深度爬取失败: " +:+ url)
      ∈ logs (snd (deepCrawl_loop fuel maxDepth visited results queue w)).
Proof.
  intros Hbad. induction fuel as [|fuel IH]; intros visited results queue w.
  - destruct queue; cbn; intros Hin; by apply not_elem_of_nil in Hin.
  - destruct queue as [|entry queue];
      [cbn; intros Hin; by apply not_elem_of_nil in Hin|].
    destruct (deepCrawl_loop_unroll fuel maxDepth visited results entry queue w)
      as (st & t & Hkind & ->).
    cbn [snd]. unfold crawl_calls at 1, logs at 1. rewrite !omap_app.
    fold (crawl_calls t). fold (logs t).
    fold (crawl_calls (snd (deepCrawl_loop fuel maxDepth (fst (fst st))
                                           (snd (fst st)) (snd st) w))).
    fold (logs (snd (deepCrawl_loop fuel maxDepth (fst (fst st))
                                    (snd (fst st)) (snd st) w))).
    rewrite !elem_of_app. intros [Hin|Hin]; [|right; by apply IH].
    destruct Hkind as [Hskip|visitedPage Hd Hv Hc|failure Hd Hv Hc].
    + by apply not_elem_of_nil in Hin.
    + rewrite crawl_trace_calls in Hin.
      apply list_elem_of_singleton in Hin. subst url. congruence.
    + left. unfold crawl_calls in Hin. rewrite omap_app in Hin.
      fold (crawl_calls (crawl_trace (q_url entry) no_options)) in Hin.
      rewrite crawl_trace_calls in Hin. cbn in Hin.
      apply list_elem_of_singleton in Hin. subst url.
      unfold logs. rewrite omap_app. apply elem_of_app. right.
      cbn. left.
Qed.

(** C2 (amended).  When the visit of the seed fails, the deep crawl returns
    the empty result sequence and nothing else: the failure is written to
    the error log with the seed's URL, and is not part of what is returned.
    No run ends in an exception, and every failed visit of a run is in the
    log under the URL that failed. *)
Theorem deepCrawl_failures_logged (fuel : nat) (baseUrl : string)
    (maxDepth : Z) (w : World) :
  (forall message,
      crawled baseUrl no_options = Throw message -> 0 <= maxDepth ->
      deepCrawlWebsite (S fuel) baseUrl maxDepth w
      = (Ok (Some []), w,
         crawl_trace baseUrl no_options ++
         [EvLog ("深度爬取失败: " +:+ baseUrl)])) /\
  (exists returned,
      fst (fst (deepCrawlWebsite fuel baseUrl maxDepth w)) = Ok returned) /\
  (forall url message,
      crawled url no_options = Throw message ->
      url ∈ crawl_calls (snd (deepCrawlWebsite fuel baseUrl maxDepth w)) ->
      ("深度爬取失败: " +:+ url)
        ∈ logs (snd (deepCrawlWebsite fuel baseUrl maxDepth w))).
Proof.
  split; [|split].
  - intros message Hbad Hdepth. unfold deepCrawlWebsite.
    cbn [deepCrawl_loop]. unfold bind. rewrite deepCrawl_step_run.
    cbn [q_depth q_url].
    replace (0 >? maxDepth) with false
      by (symmetry; rewrite Z.gtb_ltb; apply Z.ltb_ge; lia).
    rewrite bool_decide_eq_false_2 by set_solver. cbn [orb].
    rewrite Hbad. destruct fuel; cbn; by rewrite app_nil_r.
  - apply deepCrawl_loop_returns.
  - intros url message Hbad. by eapply deepCrawl_loop_logs_failures.
Qed.

End DeepCrawl.

(** ** The stored technologies *)

Lemma dedupe_from_elem (x : string) (l seen : list string) :
  x ∈ JS.dedupe_from seen l <-> x ∈ l /\ x ∉ seen.
Proof.
  revert seen. induction l as [|y l IH]; intros seen; cbn.
  - split; [intros Hx; by apply not_elem_of_nil in Hx|intros [Hx _]; done].
  - case_bool_decide as Hy.
    + rewrite IH, elem_of_cons. split; [intros [? ?]; by auto|].
      intros [[->|Hx] Hseen]; [done|by auto].
    + rewrite !elem_of_cons, IH, elem_of_cons. split.
      * intros [->|[Hx Hseen]]; [by auto|]. split; [by auto|].
        intros Hin. apply Hseen. by right.
      * intros [[->|Hx] Hseen]; [by left|].
        destruct (decide (x = y)) as [->|Hne]; [by left|].
        right. split; [done|]. intros [?|?]; done.
Qed.

(** The crawl-status method of the model merges: it loses no technology. *)
Lemma updateCrawlStatus_keeps (time : Z) (status : string)
    (meta : option (list string)) (this : Crawler.Website.t) (x : string) :
  x ∈ Crawler.Website.technologies this ->
  x ∈ Crawler.Website.technologies
        (Crawler.Website.updateCrawlStatus time status meta this).
Proof.
  intros Hx. destruct meta as [found|]; cbn; [|done].
  apply dedupe_from_elem. split; [|apply not_elem_of_nil].
  apply elem_of_app. by left.
Qed.

Section Instances.

Import Url Dom Crawler.


(** C2 (counterexample).  On a web where nothing answers, the deep crawls
    of two different seeds return the same value, the empty sequence: what
    is returned holds no failure entry, so no reading of it can name the
    seed that failed. *)
Lemma deepCrawl_returns_no_failure_entry :
  fst (fst (@deepCrawlWebsite (Toy.platform []) 5 "https://a.example/" 2 idle))
    = Ok (Some []) /\
  ~ exists failures_of : option (list CrawlResult) -> list string,
      forall seed message returned,
        @crawled (Toy.platform []) seed tt = Throw message ->
        fst (fst (@deepCrawlWebsite (Toy.platform []) 5 seed 2 idle))
          = Ok returned ->
        failures_of returned = [seed].
Proof.
  split; [vm_compute; reflexivity|]. intros [failures_of Hall].
  assert (Ha : failures_of (Some []) = ["https://a.example/"]).
  { eapply Hall; vm_compute; reflexivity. }
  assert (Hb : failures_of (Some []) = ["https://b.example/"]).
  { eapply Hall; vm_compute; reflexivity. }
  rewrite Ha in Hb. discriminate.
Qed.

Lemma deepCrawl_failures_logged_witness :
  @deepCrawlWebsite (Toy.platform []) 5 "https://a.example/" 2 idle
  = (Ok (Some []), idle,
     @crawl_trace (Toy.platform []) "https://a.example/" tt ++
     [EvLog "深度爬取失败: https://a.example/"]) /\
  "深度爬取失败: https://example.com/missing"
    ∈ logs (snd (@deepCrawlWebsite (Toy.platform Toy.shop) 20
                   "http://example.com" 2 idle)).
Proof.
  split.
  - apply (proj1 (@deepCrawl_failures_logged (Toy.platform []) 4
                    "https://a.example/" 2 idle)
             "爬取失败: timeout of 10000ms exceeded").
    + vm_compute. reflexivity.
    + lia.
  - apply (proj2 (proj2 (@deepCrawl_failures_logged (Toy.platform Toy.shop) 20
                           "http://example.com" 2 idle))
             "https://example.com/missing"
             "爬取失败: timeout of 10000ms exceeded").
    + vm_compute. reflexivity.
    + vm_compute. do 2 right. left.
Defined.





(** C6 (counterexample).  [validateUrl] keeps the fragment of the URL it
    is given; and on a URL with an opaque path the doubled slash stays. *)
Lemma validateUrl_keeps_fragment :
  (exists p,
      @validateUrl (Toy.platform []) "http://example.com//a//b#top" = Some p /\
      hash p = "#top" /\
      href p = "https://example.com/a/b#top") /\
  (exists p,
      @validateUrl (Toy.platform []) "mailto:sales//eu@example.com" = Some p /\
      JS.has_double_slash (pathname p) = true).
Proof.
  split.
  - exists (mkURL "https:" "example.com" "" "/a/b" "" "#top" false).
    vm_compute. repeat split; reflexivity.
  - exists (mkURL "mailto:" "" "" "sales//eu@example.com" "" "" true).
    vm_compute. repeat split; reflexivity.
Qed.

Lemma validateUrl_normalizes_witness :
  exists parsed,
    Toy.URL_new "http://example.com//a//b#top" = Some parsed /\
    (protocol parsed = "http:" ->
     protocol (mkURL "https:" "example.com" "" "/a/b" "" "#top" false)
     = "https:") /\
    (opaque parsed = false ->
     JS.has_double_slash
       (pathname (mkURL "https:" "example.com" "" "/a/b" "" "#top" false))
     = false) /\
    hash (mkURL "https:" "example.com" "" "/a/b" "" "#top" false)
    = hash parsed.
Proof.
  apply (@validateUrl_normalizes (Toy.platform [])
           "http://example.com//a//b#top").
  vm_compute. reflexivity.
Defined.

(** C7 (counterexample).  On a document without a canonical link the
    [canonical] field is the address of the page, not the empty string. *)
Lemma extractMetadata_canonical_default :
  exists p,
    Toy.URL_new "https://example.com/" = Some p /\
    select (ByTagAttr "link" "rel" "canonical") [] = [] /\
    canonical (extractMetadata [] p) = "https://example.com/".
Proof.
  exists (mkURL "https:" "example.com" "" "/" "" "" false).
  vm_compute. repeat split; reflexivity.
Qed.

Lemma extractMetadata_absent_witness :
  let m :=
    extractMetadata [] (mkURL "https:" "example.com" "" "/" "" "" false) in
  title m = "" /\ description m = "" /\ keywords m = "" /\
  canonical m = "https://example.com/" /\ viewport m = "" /\
  ogTitle m = "" /\ ogDescription m = "" /\ ogImage m = "".
Proof.
  destruct (extractMetadata_absent []
              (mkURL "https:" "example.com" "" "/" "" "" false))
    as (H1 & H2 & H3 & H4 & H5 & H6 & H7 & H8).
  exact (conj (H1 eq_refl) (conj (H2 eq_refl) (conj (H3 eq_refl)
           (conj (H4 eq_refl) (conj (H5 eq_refl) (conj (H6 eq_refl)
           (conj (H7 eq_refl) (H8 eq_refl)))))))).
Defined.





Lemma toy_web_finite (web : Toy.Web) (href : string)
    (response : AxiosResponse Document) :
  Toy.axios_get web href tt = inr response -> href ∈ map fst web.
Proof.
  unfold Toy.axios_get.
  induction web as [|[h r] web IH]; cbn; [discriminate|].
  destruct (String.eqb_spec h href) as [->|Hne]; [intros _; left|].
  intros Hget. right. exact (IH Hget).
Qed.

Lemma deepCrawlWebsite_terminates_witness :
  exists enough found t,
    forall fuel,
      (enough <= fuel)%nat ->
      @deepCrawlWebsite (Toy.platform Toy.shop) fuel "http://example.com" 2 idle
      = (Ok (Some found), idle, t).
Proof.
  apply (@deepCrawlWebsite_terminates (Toy.platform Toy.shop)
           (map fst Toy.shop)).
  intros href response. apply toy_web_finite.
Defined.

End Instances.

(** * Further properties *)

(** ** The limiter, for a client it can name *)

Lemma grants_cons (d : RateLimit.Decision) (ds : list RateLimit.Decision) :
  RateLimit.grants (d :: ds)
  = ((if RateLimit.is_next d then 1 else 0) + RateLimit.grants ds)%nat.
Proof. unfold RateLimit.grants. cbn. by destruct (RateLimit.is_next d). Qed.

Section LimiterFacts.

Import RateLimit.

Variable options : Options.
Variable req : Request.
Variable clientId : string.
Hypothesis Hclient : getClientIdentifier req = inr clientId.
Hypothesis HskipS : skipSuccessfulRequests options = false.
Hypothesis HskipF : skipFailedRequests options = false.

(** With a real response object and no skip flag the middleware is the
    window counter alone. *)
Lemma limiter_counts (currentTime : Z) (reqs : gmap string ClientRecord) :
  limiter options req ExpressResponse currentTime reqs =
  let clientRecord :=
    default {| count := 0; startTime := currentTime |} (reqs !! clientId) in
  if currentTime - startTime clientRecord >? windowMs options then
    {| decision := Next;
       requests := <[clientId := {| count := 1; startTime := currentTime |}]> reqs;
       sentHeaders := []; logged := [] |}
  else if count clientRecord >=? max options then
    {| decision :=
         Respond (statusCode options) (message options)
           (ceil_seconds (startTime clientRecord + windowMs options
                          - currentTime));
       requests := reqs;
       sentHeaders :=
         [("X-RateLimit-Limit", max options);
          ("X-RateLimit-Remaining", 0);
          ("X-RateLimit-Reset",
           ceil_seconds (startTime clientRecord + windowMs options
                         - currentTime))];
       logged := [LogWarn ("限流触发: " +:+ clientId)] |}
  else
    {| decision := Next;
       requests :=
         <[clientId := {| count := count clientRecord + 1;
                          startTime := startTime clientRecord |}]> reqs;
       sentHeaders :=
         [("X-RateLimit-Limit", max options);
          ("X-RateLimit-Remaining",
           Z.max 0 (max options - (count clientRecord + 1)))];
       logged := [] |}.
Proof.
  unfold limiter, shouldSkip. rewrite Hclient, HskipS, HskipF. reflexivity.
Qed.

(** The two moves on a record whose window is still open. *)
Lemma limiter_full (currentTime used start : Z)
    (reqs : gmap string ClientRecord) :
  reqs !! clientId = Some {| count := used; startTime := start |} ->
  currentTime - start <= windowMs options ->
  max options <= used ->
  decision (limiter options req ExpressResponse currentTime reqs)
  = Respond (statusCode options) (message options)
      (ceil_seconds (start + windowMs options - currentTime)) /\
  requests (limiter options req ExpressResponse currentTime reqs) = reqs.
Proof.
  intros Hrec Hopen Hfull. rewrite limiter_counts. cbn zeta. rewrite Hrec.
  change (default _ (Some ?r)) with r. cbn [count startTime].
  replace (currentTime - start >? windowMs options) with false
    by (symmetry; rewrite Z.gtb_ltb; apply Z.ltb_ge; lia).
  replace (used >=? max options) with true
    by (symmetry; rewrite Z.geb_leb; apply Z.leb_le; lia).
  done.
Qed.

Lemma limiter_room (currentTime used start : Z)
    (reqs : gmap string ClientRecord) :
  reqs !! clientId = Some {| count := used; startTime := start |} ->
  currentTime - start <= windowMs options ->
  used < max options ->
  decision (limiter options req ExpressResponse currentTime reqs) = Next /\
  requests (limiter options req ExpressResponse currentTime reqs)
  = <[clientId := {| count := used + 1; startTime := start |}]> reqs.
Proof.
  intros Hrec Hopen Hroom. rewrite limiter_counts. cbn zeta. rewrite Hrec.
  change (default _ (Some ?r)) with r. cbn [count startTime].
  replace (currentTime - start >? windowMs options) with false
    by (symmetry; rewrite Z.gtb_ltb; apply Z.ltb_ge; lia).
  replace (used >=? max options) with false
    by (symmetry; rewrite Z.geb_leb; apply Z.leb_gt; lia).
  done.
Qed.

(** The move on a record whose window is over. *)
Lemma limiter_expired (currentTime used start : Z)
    (reqs : gmap string ClientRecord) :
  reqs !! clientId = Some {| count := used; startTime := start |} ->
  windowMs options < currentTime - start ->
  decision (limiter options req ExpressResponse currentTime reqs) = Next /\
  requests (limiter options req ExpressResponse currentTime reqs)
  = <[clientId := {| count := 1; startTime := currentTime |}]> reqs.
Proof.
  intros Hrec Hover. rewrite limiter_counts. cbn zeta. rewrite Hrec.
  change (default _ (Some ?r)) with r. cbn [count startTime].
  replace (currentTime - start >? windowMs options) with true
    by (symmetry; rewrite Z.gtb_ltb; apply Z.ltb_lt; lia).
  done.
Qed.

(** The moves for a client without a record. *)
Lemma limiter_first (currentTime : Z) (reqs : gmap string ClientRecord) :
  reqs !! clientId = None ->
  0 <= windowMs options ->
  0 < max options ->
  decision (limiter options req ExpressResponse currentTime reqs) = Next /\
  requests (limiter options req ExpressResponse currentTime reqs)
  = <[clientId := {| count := 1; startTime := currentTime |}]> reqs.
Proof.
  intros Hrec Hwin Hmax. rewrite limiter_counts. cbn zeta. rewrite Hrec.
  change (default ?d None) with d. cbn [count startTime].
  replace (currentTime - currentTime >? windowMs options) with false
    by (symmetry; rewrite Z.gtb_ltb; apply Z.ltb_ge; lia).
  replace (0 >=? max options) with false
    by (symmetry; rewrite Z.geb_leb; apply Z.leb_gt; lia).
  done.
Qed.

Lemma limiter_closed (currentTime : Z) (reqs : gmap string ClientRecord) :
  reqs !! clientId = None ->
  0 <= windowMs options ->
  max options <= 0 ->
  is_next (decision (limiter options req ExpressResponse currentTime reqs))
  = false /\
  requests (limiter options req ExpressResponse currentTime reqs) = reqs.
Proof.
  intros Hrec Hwin Hmax. rewrite limiter_counts. cbn zeta. rewrite Hrec.
  change (default ?d None) with d. cbn [count startTime].
  replace (currentTime - currentTime >? windowMs options) with false
    by (symmetry; rewrite Z.gtb_ltb; apply Z.ltb_ge; lia).
  replace (0 >=? max options) with true
    by (symmetry; rewrite Z.geb_leb; apply Z.leb_le; lia).
  done.
Qed.

(** Requests inside the window of a stored record: the grants are what the
    record has not used up, and the record counts them. *)
Lemma serve_within_window (times : list Z) :
  forall (reqs : gmap string ClientRecord) (used start : Z),
    reqs !! clientId = Some {| count := used; startTime := start |} ->
    Forall (fun t => t - start <= windowMs options) times ->
    grants (fst (serve options req ExpressResponse times reqs))
    = Nat.min (length times) (Z.to_nat (max options - used)) /\
    snd (serve options req ExpressResponse times reqs) !! clientId
    = Some {| count :=
                used + Z.of_nat (Nat.min (length times)
                                         (Z.to_nat (max options - used)));
              startTime := start |}.
Proof.
  induction times as [|t times IH]; intros reqs used start Hrec Hin.
  - cbn. rewrite Hrec. split; [done|]. do 2 f_equal. lia.
  - apply Forall_cons in Hin as [Ht Hin]. cbn [serve].
    destruct (Z_lt_le_dec used (max options)) as [Hroom|Hfull].
    + destruct (limiter_room t used start reqs Hrec Ht Hroom) as [-> ->].
      destruct (IH (<[clientId := {| count := used + 1; startTime := start |}]> reqs)
                   (used + 1) start (lookup_insert_eq _ _ _) Hin) as [IHg IHr].
      destruct (serve options req ExpressResponse times _) as [ds reqs'].
      cbn [fst snd] in *. rewrite grants_cons, IHg, IHr. cbn [is_next length].
      split; [lia|]. do 2 f_equal. lia.
    + destruct (limiter_full t used start reqs Hrec Ht Hfull) as [-> ->].
      destruct (IH reqs used start Hrec Hin) as [IHg IHr].
      destruct (serve options req ExpressResponse times reqs) as [ds reqs'].
      cbn [fst snd] in *. rewrite grants_cons, IHg, IHr. cbn [is_next length].
      split; [lia|]. do 2 f_equal. lia.
Qed.

(** A limiter that admits nothing never stores a record. *)
Lemma serve_closed (times : list Z) (reqs : gmap string ClientRecord) :
  reqs !! clientId = None ->
  0 <= windowMs options ->
  max options <= 0 ->
  grants (fst (serve options req ExpressResponse times reqs)) = 0%nat.
Proof.
  intros Hrec Hwin Hmax. induction times as [|t times IH]; [done|].
  cbn [serve].
  destruct (limiter_closed t reqs Hrec Hwin Hmax) as [Hd ->].
  destruct (serve options req ExpressResponse times reqs) as [ds reqs'].
  cbn [fst] in *. by rewrite grants_cons, Hd, IH.
Qed.

(** X1.  From a client's first request on, as long as the requests fall
    inside the window that the first one opens, the limiter lets through
    exactly the first [max] of them: the number of grants is the smaller of
    the number of requests and the capacity. *)
Theorem limiter_grants_capacity (first : Z) (later : list Z)
    (reqs : gmap string ClientRecord) :
  reqs !! clientId = None ->
  0 <= windowMs options ->
  Forall (fun t => t - first <= windowMs options) later ->
  grants (fst (serve options req ExpressResponse (first :: later) reqs))
  = Nat.min (length (first :: later)) (Z.to_nat (max options)).
Proof.
  intros Hrec Hwin Hin.
  destruct (Z_lt_le_dec 0 (max options)) as [Hmax|Hmax].
  - cbn [serve].
    destruct (limiter_first first reqs Hrec Hwin Hmax) as [-> ->].
    destruct (serve_within_window later
                (<[clientId := {| count := 1; startTime := first |}]> reqs)
                1 first (lookup_insert_eq _ _ _) Hin) as [Hg _].
    destruct (serve options req ExpressResponse later _) as [ds reqs'].
    cbn [fst] in *. rewrite grants_cons, Hg. cbn [is_next length]. lia.
  - rewrite (serve_closed (first :: later) reqs Hrec Hwin Hmax).
    cbn [length]. lia.
Qed.

Lemma ceil_seconds_covers (ms : Z) : ms <= 1000 * ceil_seconds ms.
Proof.
  unfold ceil_seconds. pose proof (Z.mul_div_le (- ms) 1000). lia.
Qed.

Lemma ceil_seconds_nonneg (ms : Z) : 0 <= ms -> 0 <= ceil_seconds ms.
Proof.
  intros Hms. unfold ceil_seconds.
  assert (- ms / 1000 <= 0) by (apply Z.div_le_upper_bound; lia). lia.
Qed.

(** X2.  A limiter that admits at least one request per window keeps its
    word on [retryAfter]: a refusal changes nothing in the map, announces a
    wait that is not negative, and the same client asking again later than
    that many seconds after the refusal is let through. *)
Theorem limiter_retry_after (currentTime later status wait : Z)
    (error : string) (reqs : gmap string ClientRecord) :
  0 < max options ->
  decision (limiter options req ExpressResponse currentTime reqs)
  = Respond status error wait ->
  currentTime + 1000 * wait < later ->
  0 <= wait /\
  requests (limiter options req ExpressResponse currentTime reqs) = reqs /\
  decision (limiter options req ExpressResponse later reqs) = Next.
Proof.
  intros Hmax Hrefused Hlater.
  rewrite limiter_counts in Hrefused |- *. cbn zeta in Hrefused |- *.
  destruct (reqs !! clientId) as [[used start]|] eqn:Hrec.
  - change (default _ (Some ?r)) with r in Hrefused |- *.
    cbn [count startTime] in Hrefused |- *.
    destruct (currentTime - start >? windowMs options) eqn:Hopen;
      [discriminate|].
    rewrite Z.gtb_ltb in Hopen. apply Z.ltb_ge in Hopen.
    destruct (used >=? max options); [|discriminate].
    injection Hrefused as _ _ <-.
    pose proof (ceil_seconds_covers (start + windowMs options - currentTime)).
    pose proof (ceil_seconds_nonneg (start + windowMs options - currentTime)).
    split; [lia|]. split; [done|].
    destruct (limiter_expired later used start reqs Hrec) as [Hd _]; [lia|].
    exact Hd.
  - change (default ?d None) with d in Hrefused.
    cbn [count startTime] in Hrefused.
    destruct (currentTime - currentTime >? windowMs options); [discriminate|].
    replace (0 >=? max options) with false in Hrefused
      by (symmetry; rewrite Z.geb_leb; apply Z.leb_gt; lia).
    discriminate.
Qed.

End LimiterFacts.

(** ** The map that all limiters share *)

(** X3.  The limiters made by the one factory count in one map, keyed by
    client alone: requests that one limiter has let through are counted
    against the same client by any other limiter.  After [n] requests let
    through by the first, a second limiter of capacity [n] or less, asked
    inside its own window, refuses the client. *)
Theorem limiters_share_counters (options other : RateLimit.Options)
    (req : RateLimit.Request) (clientId : string) (first current : Z)
    (later : list Z) (reqs : gmap string RateLimit.ClientRecord) :
  RateLimit.getClientIdentifier req = inr clientId ->
  RateLimit.skipSuccessfulRequests options = false ->
  RateLimit.skipFailedRequests options = false ->
  RateLimit.skipSuccessfulRequests other = false ->
  RateLimit.skipFailedRequests other = false ->
  reqs !! clientId = None ->
  0 <= RateLimit.windowMs options ->
  Forall (fun t => t - first <= RateLimit.windowMs options) later ->
  Z.of_nat (length (first :: later)) <= RateLimit.max options ->
  current - first <= RateLimit.windowMs other ->
  RateLimit.max other <= Z.of_nat (length (first :: later)) ->
  RateLimit.is_next
    (RateLimit.decision
       (RateLimit.limiter other req RateLimit.ExpressResponse current
          (snd (RateLimit.serve options req RateLimit.ExpressResponse
                  (first :: later) reqs))))
  = false.
Proof.
  intros Hclient HsS HsF HoS HoF Hrec Hwin Hin Hall Hopen Hcap.
  cbn [RateLimit.serve].
  destruct (limiter_first options req clientId Hclient HsS HsF first reqs Hrec Hwin)
    as [_ ->]; [cbn [length] in Hall; lia|].
  destruct (serve_within_window options req clientId Hclient HsS HsF later
              (<[clientId := {| RateLimit.count := 1;
                               RateLimit.startTime := first |}]> reqs)
              1 first (lookup_insert_eq _ _ _) Hin) as [_ Hfinal].
  destruct (RateLimit.serve options req RateLimit.ExpressResponse later _)
    as [ds reqs'].
  cbn [fst snd] in *.
  destruct (limiter_full other req clientId Hclient HoS HoF current _ first
              reqs' Hfinal Hopen) as [-> _]; [cbn [length] in *; lia|].
  reflexivity.
Qed.

(** X4.  A request changes no record but that of the client it comes from,
    and what the limiter decides for it depends on that one record only. *)
Theorem limiter_isolates_clients (options : RateLimit.Options)
    (req : RateLimit.Request) (res : RateLimit.Response) (currentTime : Z)
    (reqs : gmap string RateLimit.ClientRecord) :
  (forall other,
      RateLimit.getClientIdentifier req <> inr other ->
      RateLimit.requests (RateLimit.limiter options req res currentTime reqs)
        !! other = reqs !! other) /\
  (forall reqs' : gmap string RateLimit.ClientRecord,
      (forall clientId,
          RateLimit.getClientIdentifier req = inr clientId ->
          reqs' !! clientId = reqs !! clientId) ->
      RateLimit.decision (RateLimit.limiter options req res currentTime reqs')
      = RateLimit.decision (RateLimit.limiter options req res currentTime reqs)).
Proof.
  unfold RateLimit.limiter. split.
  - intros other Hother.
    destruct (RateLimit.getClientIdentifier req) as [e|clientId]; [done|].
    assert (clientId <> other) by congruence.
    destruct (RateLimit.shouldSkip req options) as [e|[|]]; [done..|].
    cbn zeta.
    repeat match goal with
           | |- context [if ?b then _ else _] => destruct b
           | |- context [match res with _ => _ end] => destruct res
           end; cbn; by rewrite ?lookup_insert_ne.
  - intros reqs' Hsame.
    destruct (RateLimit.getClientIdentifier req) as [e|clientId]; [done|].
    rewrite (Hsame clientId eq_refl).
    destruct (RateLimit.shouldSkip req options) as [e|[|]]; [done..|].
    cbn zeta.
    repeat match goal with
           | |- context [if ?b then _ else _] => destruct b
           | |- context [match res with _ => _ end] => destruct res
           end; done.
Qed.

(** X5.  Switching on [skipFailedRequests] switches the limiter off: the
    skip test reads a [res] that is not in its scope, the middleware
    catches the error and lets the request go, and nothing is counted. *)
Theorem skip_flag_disables_limiter (options : RateLimit.Options)
    (req : RateLimit.Request) (res : RateLimit.Response) (currentTime : Z)
    (reqs : gmap string RateLimit.ClientRecord) :
  RateLimit.skipFailedRequests options = true ->
  RateLimit.decision (RateLimit.limiter options req res currentTime reqs)
  = RateLimit.Next /\
  RateLimit.requests (RateLimit.limiter options req res currentTime reqs)
  = reqs /\
  RateLimit.logged (RateLimit.limiter options req res currentTime reqs)
  = [RateLimit.LogError "限流中间件错误:"].
Proof.
  intros Hflag. unfold RateLimit.limiter, RateLimit.shouldSkip.
  rewrite Hflag.
  destruct (RateLimit.getClientIdentifier req); [done|].
  destruct (_ && _)%bool; done.
Qed.

(** ** The cleanup task *)

Lemma cleanup_lookup (now : Z) (reqs : gmap string RateLimit.ClientRecord)
    (clientId : string) :
  RateLimit.cleanup now reqs !! clientId =
  match reqs !! clientId with
  | Some r =>
      if now - RateLimit.startTime r
         >? RateLimit.windowMs RateLimit.defaultConfig
      then None else Some r
  | None => None
  end.
Proof.
  unfold RateLimit.cleanup. rewrite map_lookup_filter.
  destruct (reqs !! clientId) as [r|]; [|done].
  cbn -[RateLimit.defaultConfig].
  destruct (now - RateLimit.startTime r
            >? RateLimit.windowMs RateLimit.defaultConfig) eqn:E.
  - rewrite option_guard_False; [done|]. congruence.
  - rewrite option_guard_True; done.
Qed.


(** X7.  For a limiter whose window is longer than the default one the
    cleanup task cuts the window short: a client that has used up its
    capacity, and whose window began longer ago than the default window
    but is still open, is refused before the cleanup and let through right
    after it. *)
Theorem cleanup_reopens_long_window (options : RateLimit.Options)
    (req : RateLimit.Request) (clientId : string)
    (now currentTime used start : Z)
    (reqs : gmap string RateLimit.ClientRecord) :
  RateLimit.getClientIdentifier req = inr clientId ->
  RateLimit.skipSuccessfulRequests options = false ->
  RateLimit.skipFailedRequests options = false ->
  reqs !! clientId
  = Some {| RateLimit.count := used; RateLimit.startTime := start |} ->
  0 < RateLimit.max options ->
  RateLimit.max options <= used ->
  RateLimit.windowMs RateLimit.defaultConfig < now - start ->
  now <= currentTime ->
  currentTime - start <= RateLimit.windowMs options ->
  RateLimit.is_next
    (RateLimit.decision
       (RateLimit.limiter options req RateLimit.ExpressResponse currentTime reqs))
  = false /\
  RateLimit.decision
    (RateLimit.limiter options req RateLimit.ExpressResponse currentTime
       (RateLimit.cleanup now reqs))
  = RateLimit.Next.
Proof.
  intros Hclient HsS HsF Hrec Hmax Hfull Hold Hnow Hopen.
  assert (Hdefault : 0 <= RateLimit.windowMs RateLimit.defaultConfig)
    by (cbn; lia).
  split.
  - destruct (limiter_full options req clientId Hclient HsS HsF currentTime
                used start reqs Hrec Hopen Hfull) as [-> _].
    reflexivity.
  - pose proof (cleanup_lookup now reqs clientId) as Hclean.
    rewrite Hrec in Hclean. cbn [RateLimit.startTime] in Hclean.
    replace (now - start >? RateLimit.windowMs RateLimit.defaultConfig)
      with true in Hclean
      by (symmetry; rewrite Z.gtb_ltb; apply Z.ltb_lt; lia).
    destruct (limiter_first options req clientId Hclient HsS HsF currentTime
                _ Hclean) as [-> _]; [lia|done|done].
Qed.

(** ** Strings, again *)

Lemma collapse_slashes_fixed (s : string) :
  JS.has_double_slash s = false -> JS.collapse_slashes s = s.
Proof.
  induction s as [|c s IH]; [done|].
  destruct s as [|c' s']; [done|].
  change (JS.has_double_slash (String c (String c' s')))
    with ((Ascii.eqb c "/" && Ascii.eqb c' "/")
          || JS.has_double_slash (String c' s'))%bool.
  change (JS.collapse_slashes (String c (String c' s')))
    with (if (Ascii.eqb c "/" && Ascii.eqb c' "/")%bool
          then JS.collapse_slashes (String c' s')
          else String c (JS.collapse_slashes (String c' s'))).
  intros [Hhere Hrest]%orb_false_elim. rewrite Hhere, (IH Hrest). done.
Qed.







Lemma dedupe_from_NoDup (l seen : list string) : NoDup (JS.dedupe_from seen l).
Proof.
  revert seen. induction l as [|x l IH]; intros seen; cbn; [constructor|].
  case_bool_decide; [apply IH|].
  constructor; [|apply IH].
  rewrite dedupe_from_elem. intros [_ Hx]. apply Hx. left.
Qed.

Lemma dedupe_elem (x : string) (l : list string) : x ∈ JS.dedupe l <-> x ∈ l.
Proof.
  unfold JS.dedupe. rewrite dedupe_from_elem. split; [by intros [? _]|].
  intros Hx. split; [done|apply not_elem_of_nil].
Qed.

(** Removing duplicates from a list that continues one without duplicates
    leaves that one in place. *)
Lemma dedupe_from_app (l1 l2 seen : list string) :
  JS.dedupe_from seen (JS.dedupe_from seen l1 ++ l2)
  = JS.dedupe_from seen (l1 ++ l2).
Proof.
  revert seen. induction l1 as [|x l1 IH]; intros seen; cbn; [done|].
  case_bool_decide as Hx; [apply IH|].
  cbn. rewrite bool_decide_eq_false_2 by done. f_equal. apply IH.
Qed.

Lemma dedupe_from_seen (l seen : list string) :
  (forall x, x ∈ l -> x ∈ seen) -> JS.dedupe_from seen l = [].
Proof.
  induction l as [|x l IH]; intros Hall; cbn; [done|].
  rewrite bool_decide_eq_true_2 by (apply Hall; left).
  apply IH. intros y Hy. apply Hall. by right.
Qed.

Lemma dedupe_from_twice (l1 l2 seen : list string) :
  JS.dedupe_from seen (l1 ++ l2 ++ l2) = JS.dedupe_from seen (l1 ++ l2).
Proof.
  revert seen. induction l1 as [|x l1 IH]; intros seen; cbn.
  - revert seen. induction l2 as [|y l2 IH2] using rev_ind; intros seen; [done|].
    assert (Hgen : forall (l : list string) seen',
      (forall z, z ∈ l2 ++ [y] -> z ∈ l \/ z ∈ seen') ->
      JS.dedupe_from seen' (l ++ l2 ++ [y]) = JS.dedupe_from seen' l).
    { clear. intros l. induction l as [|a l IHl]; intros seen' Hcov; cbn.
      - apply dedupe_from_seen. intros z Hz.
        destruct (Hcov z Hz) as [Hin|Hin]; [by apply not_elem_of_nil in Hin|done].
      - case_bool_decide as Ha.
        + apply IHl. intros z Hz. destruct (Hcov z Hz) as [Hin|Hin]; [|by right].
          apply elem_of_cons in Hin as [->|Hin]; [by right|by left].
        + f_equal. apply IHl. intros z Hz.
          destruct (Hcov z Hz) as [Hin|Hin]; [|right; by right].
          apply elem_of_cons in Hin as [->|Hin]; [right; left|by left]. }
    apply Hgen. intros z Hz. by left.
  - case_bool_decide; [apply IH|]. f_equal. apply IH.
Qed.


(** ** One visit, again *)

Section VisitFacts.

Import Url Dom Crawler.
Context `{Platform}.


(** X9.  Normalization is idempotent wherever the platform reads back the
    address it prints: if [validateUrl] gives [p] and the parser maps the
    text of [p] to [p], then [validateUrl] maps the text of [p] to [p]. *)
Theorem validateUrl_idempotent (url : string) (p : URL) :
  validateUrl url = Some p ->
  URL_new (href p) = Some p ->
  validateUrl (href p) = Some p.
Proof.
  intros Hp Hback.
  assert (Hproto : String.eqb (protocol p) "http:" = false).
  { apply String.eqb_neq.
    revert Hp. unfold validateUrl. destruct (URL_new url) as [parsed|]; [|done].
    intros [= <-].
    destruct (String.eqb (protocol parsed) "http:") eqn:E.
    - unfold set_pathname, set_protocol; cbn.
      destruct (opaque parsed); cbn; discriminate.
    - apply String.eqb_neq in E.
      unfold set_pathname. destruct (opaque parsed); done. }
  assert (Hpath : set_pathname p (JS.collapse_slashes (pathname p)) = p).
  { revert Hp. unfold validateUrl. destruct (URL_new url) as [parsed|]; [|done].
    cbn zeta.
    set (q := if String.eqb (protocol parsed) "http:"
              then set_protocol parsed "https:" else parsed).
    intros [= <-]. unfold set_pathname.
    destruct (opaque q) eqn:Hop; [by rewrite Hop|].
    cbn [opaque pathname protocol hostname port search hash].
    by rewrite (collapse_slashes_fixed _ (collapse_slashes_single _)). }
  unfold validateUrl. rewrite Hback, Hproto. by rewrite Hpath.
Qed.

(** X10.  [detectTechnologies] returns a list without repetition that holds
    exactly: the [server] header and the [x-powered-by] header when they
    are there and not empty, and the name of every framework one of whose
    patterns occurs in the [src] of some script of the page. *)
Theorem detectTechnologies_set (response : AxiosResponse Body) (w : World) :
  exists found,
    detectTechnologies response w = (Ok found, w, [EvParse (data response)]) /\
    NoDup found /\
    forall x,
      x ∈ found <->
      (JS.prop "server" (headers response) = Some x /\ x <> "") \/
      (JS.prop "x-powered-by" (headers response) = Some x /\ x <> "") \/
      (exists el alternatives,
          el ∈ cheerio_load (data response) /\ tag el = "script" /\
          (x, alternatives) ∈ frameworkSignatures /\
          regex_test alternatives (JS.js_or (JS.prop "src" (attrs el)) "") = true).
Proof.
  eexists. split; [reflexivity|]. split; [apply dedupe_from_NoDup|].
  intros x. rewrite dedupe_elem, !elem_of_app.
  assert (Hheader : forall name,
    x ∈ header_technology name (headers response) <->
    JS.prop name (headers response) = Some x /\ x <> "").
  { intros name. unfold header_technology.
    destruct (JS.prop name (headers response)) as [v|].
    - destruct v as [|c v]; cbn.
      + split; [intros Hx; by apply not_elem_of_nil in Hx|].
        intros [[= <-] Hne]. done.
      + rewrite list_elem_of_singleton. split; [intros ->; done|].
        by intros [[= <-] _].
    - split; [intros Hx; by apply not_elem_of_nil in Hx|by intros [? _]]. }
  rewrite !Hheader.
  assert (Hscripts :
    x ∈ concat (map script_technologies
                  (select (ByTag "script") (cheerio_load (data response)))) <->
    exists el alternatives,
      el ∈ cheerio_load (data response) /\ tag el = "script" /\
      (x, alternatives) ∈ frameworkSignatures /\
      regex_test alternatives (JS.js_or (JS.prop "src" (attrs el)) "") = true).
  { rewrite list_elem_of_In, in_concat. split.
    - intros (names & Hnames & Hx).
      apply in_map_iff in Hnames as (el & <- & Hel).
      unfold select in Hel. apply filter_In in Hel as [Hel Htag].
      cbn in Htag. apply String.eqb_eq in Htag.
      unfold script_technologies in Hx.
      apply in_map_iff in Hx as ([name alternatives] & Hname & Hsig).
      cbn in Hname. subst name.
      apply filter_In in Hsig as [Hsig Htest]. cbn in Htest.
      exists el, alternatives.
      split; [by apply list_elem_of_In|]. split; [done|].
      split; [by apply list_elem_of_In|done].
    - intros (el & alternatives & Hel & Htag & Hsig & Htest).
      exists (script_technologies el). split.
      + apply in_map_iff. exists el. split; [done|].
        unfold select. apply filter_In. split; [by apply list_elem_of_In|].
        cbn. by apply String.eqb_eq.
      + unfold script_technologies. apply in_map_iff.
        exists (x, alternatives). split; [done|].
        apply filter_In. split; [by apply list_elem_of_In|done]. }
  rewrite Hscripts. tauto.
Qed.


(** X12.  A batch accounts for every URL once: each is visited once, in
    order; the success list holds the results of those whose visit
    succeeds and the failure list the others with their error, both in
    the order of the batch; so the two lengths add up to that of the
    batch. *)
Theorem batch_accounts_for_every_url (urls : list string)
    (options : RequestOptions) (w : World) :
  exists r t,
    batchCrawlWebsites urls options w = (Ok r, w, t) /\
    crawl_calls t = urls /\
    success r = omap (fun u => ok_of (crawled u options)) urls /\
    failed r = omap (fun u => pair u <$> error_of (crawled u options)) urls /\
    (length (success r) + length (failed r) = length urls)%nat.
Proof.
  unfold batchCrawlWebsites. rewrite batch_loop_run.
  eexists _, _. split; [reflexivity|]. cbn [success failed app].
  split; [|split; [done|split; [done|]]].
  - induction urls as [|u urls IH]; [done|].
    cbn [map concat]. unfold crawl_calls in *. rewrite omap_app.
    fold (crawl_calls (crawl_trace u options)).
    rewrite crawl_trace_calls, IH. done.
  - induction urls as [|u urls IH]; [done|]. cbn.
    pose proof (crawled_settles u options) as Hset.
    destruct (crawled u options); cbn in *; [lia|lia|done].
Qed.

End VisitFacts.

(** ** The deep crawl, again *)

Section TraversalFacts.

Import Url Dom Crawler.
Context `{Platform}.

Lemma crawl_calls_app (t1 t2 : list Event) :
  crawl_calls (t1 ++ t2) = crawl_calls t1 ++ crawl_calls t2.
Proof. unfold crawl_calls. apply omap_app. Qed.



Lemma linked_at_nonneg (baseUrl : string) (d : Z) (url : string) :
  linked_at baseUrl d url -> 0 <= d.
Proof. induction 1; lia. Qed.

Lemma enqueue_linked (baseUrl : string) (visited : gset string)
    (entry : QueueEntry) (result : CrawlResult) :
  linked_at baseUrl (q_depth entry) (q_url entry) ->
  crawled (q_url entry) no_options = Ok result ->
  Forall (fun e => linked_at baseUrl (q_depth e) (q_url e))
         (enqueue visited (q_depth entry) (links (result_data result))).
Proof.
  intros Hlinked Hc. apply Forall_forall. intros e He.
  unfold enqueue in He. apply list_elem_of_In, in_map_iff in He
    as (link & <- & Hlink).
  apply filter_In in Hlink as [Hlink _].
  apply filter_In in Hlink as [Hlink Hsame].
  apply negb_true_iff in Hsame. cbn [q_depth q_url].
  eapply linked_step; [exact Hlinked|exact Hc| |exact Hsame].
  by apply list_elem_of_In.
Qed.

Lemma deepCrawl_loop_within_depth (baseUrl : string) (maxDepth : Z) :
  forall fuel visited results queue w,
    Forall (fun e => linked_at baseUrl (q_depth e) (q_url e)) queue ->
    forall url,
      url ∈ crawl_calls
              (snd (deepCrawl_loop fuel maxDepth visited results queue w)) ->
      exists d, 0 <= d <= maxDepth /\ linked_at baseUrl d url.
Proof.
  induction fuel as [|fuel IH]; intros visited results queue w Hqueue url.
  - destruct queue; cbn; intros Hin; by apply not_elem_of_nil in Hin.
  - destruct queue as [|entry queue];
      [cbn; intros Hin; by apply not_elem_of_nil in Hin|].
    apply Forall_cons in Hqueue as [Hentry Hqueue].
    destruct (deepCrawl_loop_unroll fuel maxDepth visited results entry queue w)
      as (st & t1 & Hkind & ->).
    cbn [snd]. rewrite crawl_calls_app, elem_of_app.
    assert (Hhere : url ∈ crawl_calls t1 ->
                    exists d, 0 <= d <= maxDepth /\ linked_at baseUrl d url).
    { destruct Hkind as [Hskip|result Hd Hv Hc|message Hd Hv Hc].
      - intros Hin. by apply not_elem_of_nil in Hin.
      - rewrite crawl_trace_calls. intros ->%list_elem_of_singleton.
        exists (q_depth entry). split; [|done].
        split; [by eapply linked_at_nonneg|done].
      - rewrite crawl_calls_app, crawl_trace_calls. cbn.
        intros ->%list_elem_of_singleton.
        exists (q_depth entry). split; [|done].
        split; [by eapply linked_at_nonneg|done]. }
    intros [Hin|Hin]; [by apply Hhere|].
    eapply IH; [|exact Hin].
    destruct Hkind as [Hskip|result Hd Hv Hc|message Hd Hv Hc]; cbn [snd];
      [done| |done].
    apply Forall_app. split; [done|]. by apply enqueue_linked.
Qed.

(** X14.  A deep crawl stays within its depth and on its site: every URL
    it visits stands at most [maxDepth] links away from the seed, along
    links that are not external, found on pages whose visit succeeded. *)
Theorem deepCrawl_within_depth (fuel : nat) (baseUrl : string) (maxDepth : Z)
    (w : World) (url : string) :
  url ∈ crawl_calls (snd (deepCrawlWebsite fuel baseUrl maxDepth w)) ->
  exists d, 0 <= d <= maxDepth /\ linked_at baseUrl d url.
Proof.
  unfold deepCrawlWebsite.
  apply deepCrawl_loop_within_depth.
  apply Forall_cons. split; [constructor|constructor].
Qed.

(** X15.  With a depth limit below zero the deep crawl visits nothing, not
    even the seed, and returns the empty sequence. *)
Theorem deepCrawl_negative_depth (fuel : nat) (baseUrl : string)
    (maxDepth : Z) (w : World) :
  maxDepth < 0 ->
  deepCrawlWebsite (S fuel) baseUrl maxDepth w = (Ok (Some []), w, []).
Proof.
  intros Hneg. unfold deepCrawlWebsite. cbn [deepCrawl_loop]. unfold bind.
  rewrite deepCrawl_step_run. cbn [q_depth q_url].
  replace (0 >? maxDepth) with true
    by (symmetry; rewrite Z.gtb_ltb; apply Z.ltb_lt; lia).
  cbn [orb]. destruct fuel; reflexivity.
Qed.

Lemma deepCrawl_loop_too_deep (maxDepth : Z) :
  forall fuel visited results queue w,
    Forall (fun e => maxDepth < q_depth e) queue ->
    snd (deepCrawl_loop fuel maxDepth visited results queue w) = [].
Proof.
  induction fuel as [|fuel IH]; intros visited results queue w Hdeep.
  - by destruct queue.
  - destruct queue as [|entry queue]; [done|].
    apply Forall_cons in Hdeep as [Hentry Hdeep].
    cbn [deepCrawl_loop]. unfold bind. rewrite deepCrawl_step_run.
    replace (q_depth entry >? maxDepth) with true
      by (symmetry; rewrite Z.gtb_ltb; apply Z.ltb_lt; lia).
    cbn [orb fst snd]. specialize (IH visited results queue w Hdeep).
    destruct (deepCrawl_loop fuel maxDepth visited results queue w)
      as [[r w2] t2]. cbn in *. by subst.
Qed.

(** X23.  With depth limit zero the deep crawl visits the seed, once, and
    nothing else: the links of the seed's page are put on the queue and
    discarded unvisited. *)
Theorem deepCrawl_depth_zero (fuel : nat) (baseUrl : string) (w : World) :
  crawl_calls (snd (deepCrawlWebsite (S fuel) baseUrl 0 w)) = [baseUrl].
Proof.
  unfold deepCrawlWebsite. cbn [deepCrawl_loop]. unfold bind.
  rewrite deepCrawl_step_run. cbn [q_depth q_url].
  rewrite bool_decide_eq_false_2 by apply not_elem_of_empty.
  cbn [orb Z.gtb Z.compare].
  pose proof (crawled_settles baseUrl no_options) as Hset.
  destruct (crawled baseUrl no_options) as [result|message|]; [| |done].
  - pose proof (deepCrawl_loop_too_deep 0 fuel ({[baseUrl]} ∪ ∅) ([] ++ [result])
                  ([] ++ enqueue ({[baseUrl]} ∪ ∅) 0 (links (result_data result)))
                  w) as Hrest.
    cbn [fst snd].
    destruct (deepCrawl_loop fuel 0 _ _ _ w) as [[r w2] t2].
    cbn [snd] in *. rewrite Hrest.
    + rewrite app_nil_r. apply crawl_trace_calls.
    + cbn [app]. unfold enqueue. apply Forall_forall. intros e He.
      apply list_elem_of_In, in_map_iff in He as (link & <- & _). cbn. lia.
  - cbn [fst snd].
    assert (Hrest : deepCrawl_loop fuel 0 ∅ [] [] w = (Ok (Some []), w, []))
      by (by destruct fuel).
    rewrite Hrest. cbn [snd].
    by rewrite app_nil_r, crawl_calls_app, crawl_trace_calls.
Qed.

(** X16.  Crawling writes nothing: a batch and a deep crawl leave the
    stored website documents and the counters of the limiter as they
    found them. *)
Theorem crawling_leaves_world (fuel : nat) (baseUrl : string) (maxDepth : Z)
    (urls : list string) (options : RequestOptions) (w : World) :
  snd (fst (deepCrawlWebsite fuel baseUrl maxDepth w)) = w /\
  snd (fst (batchCrawlWebsites urls options w)) = w.
Proof.
  split; [apply deepCrawl_loop_world|].
  unfold batchCrawlWebsites. by rewrite batch_loop_run.
Qed.

(** ** updateWebsiteData, again *)






End TraversalFacts.

(** ** The website model *)

(** X21.  [updateCrawlStatus] merges: the technologies afterwards are those
    the document had together with those reported, without repetition;
    and reporting the same technologies a second time changes nothing. *)
Theorem updateCrawlStatus_merges (time time' : Z) (status status' : string)
    (found : list string) (this : Crawler.Website.t) :
  let once :=
    Crawler.Website.updateCrawlStatus time status (Some found) this in
  let twice :=
    Crawler.Website.updateCrawlStatus time' status' (Some found) once in
  NoDup (Crawler.Website.technologies once) /\
  (forall x,
      x ∈ Crawler.Website.technologies once <->
      x ∈ Crawler.Website.technologies this \/ x ∈ found) /\
  Crawler.Website.technologies twice = Crawler.Website.technologies once.
Proof.
  cbn. split; [apply dedupe_from_NoDup|]. split.
  - intros x. by rewrite dedupe_elem, elem_of_app.
  - unfold JS.dedupe. by rewrite dedupe_from_app, <- app_assoc, dedupe_from_twice.
Qed.


(** ** Closed instances of the further properties *)

Section MoreInstances.

Import Url Dom Crawler.

Lemma limiter_grants_capacity_witness :
  RateLimit.grants
    (fst (RateLimit.serve Toy.one_per_second Toy.visitor
            RateLimit.ExpressResponse (0 :: [100; 200]) ∅))
  = Nat.min (length (0 :: [100; 200]))
            (Z.to_nat (RateLimit.max Toy.one_per_second)).
Proof.
  apply (limiter_grants_capacity Toy.one_per_second Toy.visitor "203.0.113.7").
  - reflexivity.
  - reflexivity.
  - reflexivity.
  - apply lookup_empty.
  - cbn. lia.
  - repeat constructor; cbn; lia.
Defined.

Lemma limiter_retry_after_witness :
  0 <= 1 /\
  RateLimit.requests
    (RateLimit.limiter Toy.one_per_second Toy.visitor
       RateLimit.ExpressResponse 0
       {["203.0.113.7" := RateLimit.mkClientRecord 1 0]})
  = {["203.0.113.7" := RateLimit.mkClientRecord 1 0]} /\
  RateLimit.decision
    (RateLimit.limiter Toy.one_per_second Toy.visitor
       RateLimit.ExpressResponse 1001
       {["203.0.113.7" := RateLimit.mkClientRecord 1 0]})
  = RateLimit.Next.
Proof.
  apply (limiter_retry_after Toy.one_per_second Toy.visitor "203.0.113.7"
           eq_refl eq_refl eq_refl 0 1001 429 1 "请求过于频繁，请稍后再试").
  - cbn. lia.
  - vm_compute. reflexivity.
  - lia.
Defined.

Lemma limiters_share_counters_witness :
  RateLimit.is_next
    (RateLimit.decision
       (RateLimit.auth Toy.visitor RateLimit.ExpressResponse 5000
          (snd (RateLimit.serve
                  (RateLimit.merge RateLimit.defaultConfig RateLimit.api_config)
                  Toy.visitor RateLimit.ExpressResponse
                  (0 :: [1000; 2000; 3000; 4000]) ∅))))
  = false.
Proof.
  apply (limiters_share_counters
           (RateLimit.merge RateLimit.defaultConfig RateLimit.api_config)
           (RateLimit.merge RateLimit.defaultConfig RateLimit.auth_config)
           Toy.visitor "203.0.113.7").
  - reflexivity.
  - reflexivity.
  - reflexivity.
  - reflexivity.
  - reflexivity.
  - apply lookup_empty.
  - cbn. lia.
  - repeat constructor; cbn; lia.
  - cbn. lia.
  - cbn. lia.
  - cbn. lia.
Defined.

Lemma limiter_isolates_clients_witness :
  RateLimit.requests
    (RateLimit.limiter Toy.one_per_second Toy.visitor
       RateLimit.ExpressResponse 0
       {["198.51.100.2" := RateLimit.mkClientRecord 1 0]})
    !! "198.51.100.2"
  = ({["198.51.100.2" := RateLimit.mkClientRecord 1 0]}
       : gmap string RateLimit.ClientRecord) !! "198.51.100.2".
Proof.
  apply (proj1 (limiter_isolates_clients Toy.one_per_second Toy.visitor
                  RateLimit.ExpressResponse 0
                  {["198.51.100.2" := RateLimit.mkClientRecord 1 0]})).
  discriminate.
Defined.

Lemma skip_flag_disables_limiter_witness :
  RateLimit.decision
    (RateLimit.limiter Toy.skipping Toy.visitor RateLimit.ExpressResponse 0
       {["203.0.113.7" := RateLimit.mkClientRecord 7 0]})
  = RateLimit.Next /\
  RateLimit.requests
    (RateLimit.limiter Toy.skipping Toy.visitor RateLimit.ExpressResponse 0
       {["203.0.113.7" := RateLimit.mkClientRecord 7 0]})
  = {["203.0.113.7" := RateLimit.mkClientRecord 7 0]} /\
  RateLimit.logged
    (RateLimit.limiter Toy.skipping Toy.visitor RateLimit.ExpressResponse 0
       {["203.0.113.7" := RateLimit.mkClientRecord 7 0]})
  = [RateLimit.LogError "限流中间件错误:"].
Proof.
  apply (skip_flag_disables_limiter Toy.skipping). reflexivity.
Defined.


Lemma cleanup_reopens_long_window_witness :
  RateLimit.is_next
    (RateLimit.decision
       (RateLimit.api Toy.visitor RateLimit.ExpressResponse 1000000
          {["203.0.113.7" := RateLimit.mkClientRecord 1000 0]}))
  = false /\
  RateLimit.decision
    (RateLimit.api Toy.visitor RateLimit.ExpressResponse 1000000
       (RateLimit.cleanup 1000000
          {["203.0.113.7" := RateLimit.mkClientRecord 1000 0]}))
  = RateLimit.Next.
Proof.
  apply (cleanup_reopens_long_window
           (RateLimit.merge RateLimit.defaultConfig RateLimit.api_config)
           Toy.visitor "203.0.113.7" 1000000 1000000 1000 0).
  - reflexivity.
  - reflexivity.
  - reflexivity.
  - apply lookup_singleton_eq.
  - cbn. lia.
  - cbn. lia.
  - cbn. lia.
  - lia.
  - cbn. lia.
Defined.


Lemma validateUrl_idempotent_witness :
  @validateUrl (Toy.platform [])
    (href (mkURL "https:" "example.com" "" "/a/b" "" "#top" false))
  = Some (mkURL "https:" "example.com" "" "/a/b" "" "#top" false).
Proof.
  apply (@validateUrl_idempotent (Toy.platform [])
           "http://example.com//a//b#top").
  - vm_compute. reflexivity.
  - vm_compute. reflexivity.
Defined.



Lemma deepCrawl_within_depth_witness :
  exists d,
    0 <= d <= 2 /\
    @linked_at (Toy.platform Toy.shop) "http://example.com" d
      "https://example.com/about".
Proof.
  apply (@deepCrawl_within_depth (Toy.platform Toy.shop) 20
           "http://example.com" 2 idle).
  vm_compute. right. left.
Defined.

Lemma deepCrawl_negative_depth_witness :
  @deepCrawlWebsite (Toy.platform Toy.shop) 1 "http://example.com" (-1) idle
  = (Ok (Some []), idle, []).
Proof.
  apply (@deepCrawl_negative_depth (Toy.platform Toy.shop)). lia.
Defined.





End MoreInstances.
